(** * Block store: a shallow embedding of [block_store.c] and its bitmap

    The block store keeps [BLOCK_STORE_NUM_BLOCKS] blocks of
    [BLOCK_SIZE_BYTES] bytes in one flat array, tracks which blocks are in
    use in a packed bitmap, and skips a reserved range of blocks (the ones
    set aside for the bitmap itself) when it allocates.

    Values of C type [size_t] are integers of [Z] with the 64-bit
    wrap-around written out.  A pointer that may be [NULL] is an [option].
    Functions that mutate the store in place return the store they leave
    behind.  The embedded text of [block_store.c] is the complete revision
    of the file (the one that implements every function); the earlier
    revisions only differ by functions still left as stubs and by an
    allocation function without the reserved-range test, which is
    embedded next to the complete one as [block_store_allocate_early]. *)

From Stdlib Require Import ZArith List Bool Lia Sorted.
From Stdlib.Strings Require Import Byte.
From stdpp Require Import base list gmap strings.

Local Open Scope Z_scope.

(** ** [size_t] arithmetic *)

Module SizeT.

Definition modulus : Z := 2 ^ 64.
Definition SIZE_MAX : Z := modulus - 1.

Definition wrap (x : Z) : Z := x mod modulus.
Definition add (a b : Z) : Z := wrap (a + b).
Definition sub (a b : Z) : Z := wrap (a - b).
Definition mul (a b : Z) : Z := wrap (a * b).

Definition in_range (x : Z) : Prop := 0 <= x <= SIZE_MAX.

End SizeT.

(** ** The bitmap

    [bitmap.c] and [bitmap.h] are not part of the sources at hand; the
    block store only calls into them. *)

Module Bitmap.

(** Modelled from the spec: the bitmap type of [bitmap.h], which is
    missing.  "A byte buffer sized to ceil(bit_count / 8) bytes;
    bit_count, fixed at construction."  A byte is an integer in
    [0, 256). *)
Record bitmap_t : Type := mk_bitmap {
  bit_count : Z;
  bm_bytes : list Z
}.

Definition byte_count (n : Z) : Z := (n + 7) / 8.

(** The byte at index [j] of a buffer (0 outside it, where the C code
    would read out of bounds). *)
Definition byte_at (l : list Z) (j : Z) : Z :=
  if j <? 0 then 0 else default 0 (l !! Z.to_nat j).

(** Modelled from the spec: [bitmap_create] of the missing [bitmap.c].
    "new bitmap, all bits clear.  Fails (returns a null/invalid result)
    if allocation of the backing buffer fails."  [alloc_ok] says whether
    the allocation succeeds. *)
Definition bitmap_create (alloc_ok : bool) (n : Z) : option bitmap_t :=
  if alloc_ok
  then Some (mk_bitmap n (replicate (Z.to_nat (byte_count n)) 0))
  else None.

(** Modelled from the spec: [bitmap_test] of the missing [bitmap.c].
    "bit i lives at byte i / 8, bit position i % 8". *)
Definition bitmap_test (bm : bitmap_t) (i : Z) : bool :=
  Z.testbit (byte_at (bm_bytes bm) (i / 8)) (i mod 8).

(** Modelled from the spec: [bitmap_set] of the missing [bitmap.c].
    "marks bit i as 1 (idempotent)". *)
Definition bitmap_set (bm : bitmap_t) (i : Z) : bitmap_t :=
  mk_bitmap (bit_count bm)
    (<[Z.to_nat (i / 8) :=
         Z.lor (byte_at (bm_bytes bm) (i / 8)) (Z.shiftl 1 (i mod 8))]>
       (bm_bytes bm)).

(** Modelled from the spec: [bitmap_reset] of the missing [bitmap.c].
    "marks bit i as 0 (idempotent)". *)
Definition bitmap_reset (bm : bitmap_t) (i : Z) : bitmap_t :=
  mk_bitmap (bit_count bm)
    (<[Z.to_nat (i / 8) :=
         Z.land (byte_at (bm_bytes bm) (i / 8))
                (Z.lnot (Z.shiftl 1 (i mod 8)))]>
       (bm_bytes bm)).

Definition bit_value (b : Z) (k : Z) : Z := if Z.testbit b k then 1 else 0.

(** Population count of one byte. *)
Definition popcount8 (b : Z) : Z :=
  bit_value b 0 + bit_value b 1 + bit_value b 2 + bit_value b 3 +
  bit_value b 4 + bit_value b 5 + bit_value b 6 + bit_value b 7.

Fixpoint sum_popcount (l : list Z) : Z :=
  match l with
  | [] => 0
  | b :: l' => popcount8 b + sum_popcount l'
  end.

(** Modelled from the spec: [bitmap_total_set] of the missing
    [bitmap.c].  "count of bits currently set, computed by summing
    population counts across all backing bytes". *)
Definition bitmap_total_set (bm : bitmap_t) : Z :=
  sum_popcount (bm_bytes bm).

(** The number of indices in [i, i + todo) whose bit is set: what
    "count of bits currently set" means, bit by bit. *)
Fixpoint count_set_from (bm : bitmap_t) (i : Z) (todo : nat) : Z :=
  match todo with
  | O => 0
  | S todo' =>
      (if bitmap_test bm i then 1 else 0) + count_set_from bm (i + 1) todo'
  end.

Definition count_set (bm : bitmap_t) : Z :=
  count_set_from bm 0 (Z.to_nat (bit_count bm)).

(** A bitmap as [bitmap_create] builds it and [bitmap_set] and
    [bitmap_reset] keep it: the buffer has the right size, and the bits
    of the last byte past [bit_count] are clear. *)
Definition bitmap_ok (bm : bitmap_t) : Prop :=
  0 <= bit_count bm /\
  Z.of_nat (length (bm_bytes bm)) = byte_count (bit_count bm) /\
  (forall i, bit_count bm <= i -> bitmap_test bm i = false).

End Bitmap.

Import Bitmap.

(** ** Configuration and environment *)

(** The constants of [block_store.h], which is missing: the four macros
    that [block_store.c] uses are parameters of the development. *)
Class Config : Type := mk_config {
  BLOCK_STORE_NUM_BLOCKS : Z;
  BLOCK_SIZE_BYTES : Z;
  BITMAP_START_BLOCK : Z;
  BITMAP_NUM_BLOCKS : Z
}.

(** What the operating system does when asked: whether [calloc] and the
    bitmap's allocation succeed, whether [open] succeeds, and how many
    bytes the device behind [write] can take (negative: [write] fails). *)
Record sys_env : Type := mk_env {
  calloc_ok : bool;
  bitmap_alloc_ok : bool;
  open_ok : bool;
  write_limit : Z
}.

(** Resources a call acquires and gives back. *)
Inductive resource : Type := FileDescriptor | StoreMemory | BitmapMemory.

Inductive event : Type :=
| Acquire (r : resource)
| Release (r : resource).

Definition resource_eqb (a b : resource) : bool :=
  match a, b with
  | FileDescriptor, FileDescriptor => true
  | StoreMemory, StoreMemory => true
  | BitmapMemory, BitmapMemory => true
  | _, _ => false
  end.

(** How many instances of [r] are still held after the events of [tr]. *)
Fixpoint held (r : resource) (tr : list event) : Z :=
  match tr with
  | [] => 0
  | Acquire r' :: tr' => (if resource_eqb r r' then 1 else 0) + held r tr'
  | Release r' :: tr' => held r tr' - (if resource_eqb r r' then 1 else 0)
  end.

(** Modelled from the spec: [bitmap_destroy] of the missing [bitmap.c].
    "releases backing storage.  No-op/safe on an already-invalid
    handle." *)
Definition bitmap_destroy (bm : option bitmap_t) : list event :=
  match bm with
  | Some _ => [Release BitmapMemory]
  | None => []
  end.

(** ** Memory *)

(** [memcpy] out of a buffer: [len] bytes from offset [off]; [None] when
    the range leaves the buffer. *)
Definition mem_read (m : list byte) (off len : Z) : option (list byte) :=
  if (0 <=? off) && (0 <=? len) && (off + len <=? Z.of_nat (length m))
  then Some (take (Z.to_nat len) (drop (Z.to_nat off) m))
  else None.

(** [memcpy] into a buffer at offset [off]; [None] when the range leaves
    the buffer. *)
Definition mem_write (m : list byte) (off : Z) (src : list byte)
  : option (list byte) :=
  if (0 <=? off) && (off + Z.of_nat (length src) <=? Z.of_nat (length m))
  then Some (take (Z.to_nat off) m ++ src
             ++ drop (Z.to_nat off + length src) m)
  else None.

(** [d[j]] for a byte buffer ([x00] outside it). *)
Definition data_at (d : list byte) (j : Z) : byte :=
  if j <? 0 then x00 else default x00 (d !! Z.to_nat j).

(** [read(fd, buf, count)] on a regular file opened at its start. *)
Definition sys_read (content : list byte) (count : Z) : list byte :=
  take (Z.to_nat count) content.

(** [write(fd, buf, count)]: the number of bytes written, or -1. *)
Definition sys_write (limit : Z) (count : Z) : Z :=
  if limit <? 0 then -1 else Z.min limit count.

(** ** The block store *)

Section BlockStore.

Context {cfg : Config}.

(** Modelled from the spec: the macro [BLOCK_STORE_NUM_BYTES] of the
    missing [block_store.h].  "a contiguous raw buffer of N * B bytes". *)
Definition BLOCK_STORE_NUM_BYTES : Z :=
  BLOCK_STORE_NUM_BLOCKS * BLOCK_SIZE_BYTES.

(** [struct block_store]: the bitmap pointer and the block array. *)
Record block_store_t : Type := mk_block_store {
  bitmap : option bitmap_t;
  data : list byte
}.

Definition block_store_get_total_blocks : Z := BLOCK_STORE_NUM_BLOCKS.

Definition block_store_create (e : sys_env) : option block_store_t :=
  if calloc_ok e then
    match bitmap_create (bitmap_alloc_ok e) BLOCK_STORE_NUM_BLOCKS with
    | None => None
    | Some bm =>
        Some (mk_block_store (Some bm)
                (replicate (Z.to_nat BLOCK_STORE_NUM_BYTES) x00))
    end
  else None.

(** The resources that [block_store_create] acquires and gives back, on
    each of its three paths. *)
Definition block_store_create_events (e : sys_env) : list event :=
  if calloc_ok e then
    match bitmap_create (bitmap_alloc_ok e) BLOCK_STORE_NUM_BLOCKS with
    | None => [Acquire StoreMemory; Release StoreMemory]
    | Some _ => [Acquire StoreMemory; Acquire BitmapMemory]
    end
  else [].

(** [block_store_destroy]: the resources it gives back. *)
Definition block_store_destroy (bs : option block_store_t) : list event :=
  match bs with
  | None => []
  | Some s => bitmap_destroy (bitmap s) ++ [Release StoreMemory]
  end.

(** The test of the allocation loop on the reserved range. *)
Definition in_reserved (i : Z) : bool :=
  (BITMAP_START_BLOCK <=? i) && (i <? BITMAP_START_BLOCK + BITMAP_NUM_BLOCKS).

(** The [for] loop of [block_store_allocate], at index [i] with [todo]
    iterations to go. *)
Fixpoint allocate_scan (bm : bitmap_t) (i : Z) (todo : nat) : Z * bitmap_t :=
  match todo with
  | O => (SizeT.SIZE_MAX, bm)
  | S todo' =>
      if in_reserved i then allocate_scan bm (i + 1) todo'
      else if negb (bitmap_test bm i) then (i, bitmap_set bm i)
      else allocate_scan bm (i + 1) todo'
  end.

Definition block_store_allocate (bs : option block_store_t)
  : Z * option block_store_t :=
  match bs with
  | None => (SizeT.SIZE_MAX, None)
  | Some s =>
      match bitmap s with
      | None => (SizeT.SIZE_MAX, bs)
      | Some bm =>
          let '(id, bm') :=
            allocate_scan bm 0 (Z.to_nat block_store_get_total_blocks) in
          (id, Some (mk_block_store (Some bm') (data s)))
      end
  end.

(** The loop of [block_store_allocate] in the early revision of the file
    ([src/block_store.c], where the counting, reading, writing and
    persistence functions are still stubs): it tests every index, the
    reserved range included. *)
Fixpoint allocate_scan_early (bm : bitmap_t) (i : Z) (todo : nat)
  : Z * bitmap_t :=
  match todo with
  | O => (SizeT.SIZE_MAX, bm)
  | S todo' =>
      if negb (bitmap_test bm i) then (i, bitmap_set bm i)
      else allocate_scan_early bm (i + 1) todo'
  end.

(** [block_store_allocate] of the early revision [src/block_store.c].
    Only [bs] is compared with [NULL]; the result is [None] where the
    loop would hand a null [bs->bitmap] to [bitmap_test]. *)
Definition block_store_allocate_early (bs : option block_store_t)
  : option (Z * option block_store_t) :=
  match bs with
  | None => Some (SizeT.SIZE_MAX, None)
  | Some s =>
      match bitmap s with
      | None => None
      | Some bm =>
          let '(id, bm') :=
            allocate_scan_early bm 0 (Z.to_nat BLOCK_STORE_NUM_BLOCKS) in
          Some (id, Some (mk_block_store (Some bm') (data s)))
      end
  end.

Definition block_store_request (bs : option block_store_t) (block_id : Z)
  : bool * option block_store_t :=
  match bs with
  | None => (false, None)
  | Some s =>
      match bitmap s with
      | None => (false, bs)
      | Some bm =>
          if block_store_get_total_blocks <=? block_id then (false, bs)
          else if negb (bitmap_test bm block_id)
          then (true, Some (mk_block_store (Some (bitmap_set bm block_id))
                              (data s)))
          else (false, bs)
      end
  end.

Definition block_store_release (bs : option block_store_t) (block_id : Z)
  : option block_store_t :=
  match bs with
  | None => None
  | Some s =>
      match bitmap s with
      | None => bs
      | Some bm =>
          if block_id <? block_store_get_total_blocks then
            if bitmap_test bm block_id
            then Some (mk_block_store (Some (bitmap_reset bm block_id))
                         (data s))
            else bs
          else bs
      end
  end.

Definition block_store_get_used_blocks (bs : option block_store_t) : Z :=
  match bs with
  | None => SizeT.SIZE_MAX
  | Some s =>
      match bitmap s with
      | None => SizeT.SIZE_MAX
      | Some bm => SizeT.add (bitmap_total_set bm) BITMAP_NUM_BLOCKS
      end
  end.

Definition block_store_get_free_blocks (bs : option block_store_t) : Z :=
  match bs with
  | None => SizeT.SIZE_MAX
  | Some s =>
      match bitmap s with
      | None => SizeT.SIZE_MAX
      | Some _ =>
          let total_blocks := block_store_get_total_blocks in
          let used_blocks := block_store_get_used_blocks bs in
          SizeT.sub total_blocks used_blocks
      end
  end.

(** [block_store_read].  The caller's buffer is [None] for [NULL], and
    the result is the returned byte count with the buffer as the call
    leaves it.  The outer [option] is [None] when a [memcpy] would leave
    the block array or the caller's buffer.  [bs->data] is an array
    member, so [bs->data == NULL] is never true. *)
Definition block_store_read (bs : option block_store_t) (block_id : Z)
    (buffer : option (list byte)) : option (Z * option (list byte)) :=
  match bs, buffer with
  | Some s, Some buf =>
      if block_store_get_total_blocks <=? block_id then Some (0, buffer)
      else
        src ← mem_read (data s) (SizeT.mul block_id BLOCK_SIZE_BYTES)
                BLOCK_SIZE_BYTES;
        buf' ← mem_write buf 0 src;
        Some (BLOCK_SIZE_BYTES, Some buf')
  | _, _ => Some (0, buffer)
  end.

(** [block_store_write]: the returned byte count and the store as the
    call leaves it; [None] as for [block_store_read]. *)
Definition block_store_write (bs : option block_store_t) (block_id : Z)
    (buffer : option (list byte)) : option (Z * option block_store_t) :=
  match bs, buffer with
  | Some s, Some buf =>
      if block_store_get_total_blocks <=? block_id then Some (0, bs)
      else
        src ← mem_read buf 0 BLOCK_SIZE_BYTES;
        d' ← mem_write (data s) (SizeT.mul block_id BLOCK_SIZE_BYTES) src;
        Some (BLOCK_SIZE_BYTES, Some (mk_block_store (bitmap s) d'))
  | _, _ => Some (0, bs)
  end.

(** The inner loop of [block_store_deserialize]: is there a non-zero
    byte among [block_data[byte_index ..]], [todo] bytes to go? *)
Fixpoint block_is_allocated (d : list byte) (block_start byte_index : Z)
    (todo : nat) : bool :=
  match todo with
  | O => false
  | S todo' =>
      if negb (Byte.eqb (data_at d (block_start + byte_index)) x00)
      then true
      else block_is_allocated d block_start (byte_index + 1) todo'
  end.

(** The outer loop of [block_store_deserialize]. *)
Fixpoint mark_blocks (d : list byte) (bm : bitmap_t) (block_id : Z)
    (todo : nat) : bitmap_t :=
  match todo with
  | O => bm
  | S todo' =>
      let is_allocated :=
        block_is_allocated d (SizeT.mul block_id BLOCK_SIZE_BYTES) 0
          (Z.to_nat BLOCK_SIZE_BYTES) in
      let bm' := if is_allocated then bitmap_set bm block_id else bm in
      mark_blocks d bm' (block_id + 1) todo'
  end.

(** [block_store_deserialize]: the store (or [None] for [NULL]) and the
    resources acquired and released on the way.  The file system maps a
    path to the bytes of the file. *)
Definition block_store_deserialize (e : sys_env)
    (fs : gmap string (list byte)) (filename : option string)
  : option block_store_t * list event :=
  match filename with
  | None => (None, [])
  | Some path =>
      match (if open_ok e then fs !! path else None) with
      | None => (None, [])
      | Some content =>
          if negb (calloc_ok e)
          then (None, [Acquire FileDescriptor; Release FileDescriptor])
          else
            match bitmap_create (bitmap_alloc_ok e)
                    block_store_get_total_blocks with
            | None =>
                (None, [Acquire FileDescriptor; Acquire StoreMemory;
                        Release FileDescriptor; Release StoreMemory])
            | Some bm =>
                let got := sys_read content BLOCK_STORE_NUM_BYTES in
                let read_bytes := Z.of_nat (length got) in
                let d :=
                  got ++ replicate
                           (Z.to_nat BLOCK_STORE_NUM_BYTES - length got) x00 in
                if negb (read_bytes =? BLOCK_STORE_NUM_BYTES)
                then (None, [Acquire FileDescriptor; Acquire StoreMemory;
                             Acquire BitmapMemory; Release BitmapMemory;
                             Release FileDescriptor; Release StoreMemory])
                else
                  let bm' :=
                    mark_blocks d bm 0
                      (Z.to_nat block_store_get_total_blocks) in
                  (Some (mk_block_store (Some bm') d),
                   [Acquire FileDescriptor; Acquire StoreMemory;
                    Acquire BitmapMemory; Release FileDescriptor])
            end
      end
  end.

(** [block_store_serialize]: the returned byte count and the file system
    as the call leaves it.  [open] with [O_CREAT | O_TRUNC] empties the
    file, and [write] puts the first [written] bytes of [bs->data] there. *)
Definition block_store_serialize (e : sys_env)
    (fs : gmap string (list byte)) (bs : option block_store_t)
    (filename : option string) : Z * gmap string (list byte) :=
  match bs, filename with
  | Some s, Some path =>
      if open_ok e then
        let written := sys_write (write_limit e) BLOCK_STORE_NUM_BYTES in
        let fs' := <[path := take (Z.to_nat written) (data s)]> fs in
        if negb (written =? BLOCK_STORE_NUM_BYTES) then (0, fs')
        else (BLOCK_STORE_NUM_BYTES, fs')
      else (0, fs)
  | _, _ => (0, fs)
  end.

(** ** Sequences of calls *)

Inductive call : Type :=
| CallAllocate
| CallRequest (block_id : Z)
| CallRelease (block_id : Z).

(** The block ids of a sequence of calls are values of type [size_t]. *)
Definition call_in_range (c : call) : Prop :=
  match c with
  | CallAllocate => True
  | CallRequest id => SizeT.in_range id
  | CallRelease id => SizeT.in_range id
  end.

(** The call does not request an id of the reserved range. *)
Definition call_avoids_reserved (c : call) : Prop :=
  match c with
  | CallRequest id => in_reserved id = false
  | _ => True
  end.

Definition run_call (bs : option block_store_t) (c : call)
  : option block_store_t :=
  match c with
  | CallAllocate => snd (block_store_allocate bs)
  | CallRequest id => snd (block_store_request bs id)
  | CallRelease id => block_store_release bs id
  end.

Definition run_calls (bs : option block_store_t) (cs : list call)
  : option block_store_t :=
  fold_left run_call cs bs.

(** [k] calls of [block_store_allocate] in a row: the ids returned, in
    the order of the calls, and the store left behind. *)
Fixpoint allocate_many (k : nat) (bs : option block_store_t)
  : list Z * option block_store_t :=
  match k with
  | O => ([], bs)
  | S k' =>
      let '(id, bs1) := block_store_allocate bs in
      let '(ids, bs2) := allocate_many k' bs1 in
      (id :: ids, bs2)
  end.

(** [k] calls in a row of the early revision's [block_store_allocate]. *)
Fixpoint allocate_many_early (k : nat) (bs : option block_store_t)
  : option (list Z * option block_store_t) :=
  match k with
  | O => Some ([], bs)
  | S k' =>
      match block_store_allocate_early bs with
      | None => None
      | Some (id, bs1) =>
          match allocate_many_early k' bs1 with
          | None => None
          | Some (ids, bs2) => Some (id :: ids, bs2)
          end
      end
  end.

(** The indices [i, i + 1, ...], [todo] of them. *)
Fixpoint indices_from (i : Z) (todo : nat) : list Z :=
  match todo with
  | O => []
  | S todo' => i :: indices_from (i + 1) todo'
  end.

(** Calls of [block_store_request] for the ids [i, i + 1, ...], [todo]
    of them: the results, in the order of the calls, and the store left
    behind. *)
Fixpoint request_range (bs : option block_store_t) (i : Z) (todo : nat)
  : list bool * option block_store_t :=
  match todo with
  | O => ([], bs)
  | S todo' =>
      let '(ok, bs1) := block_store_request bs i in
      let '(oks, bs2) := request_range bs1 (i + 1) todo' in
      (ok :: oks, bs2)
  end.

(** The block indices [i, i + 1, ...], [todo] of them, that the
    allocation loop does not skip. *)
Fixpoint unreserved_from (i : Z) (todo : nat) : list Z :=
  match todo with
  | O => []
  | S todo' =>
      if in_reserved i then unreserved_from (i + 1) todo'
      else i :: unreserved_from (i + 1) todo'
  end.

Definition unreserved_ids : list Z :=
  unreserved_from 0 (Z.to_nat BLOCK_STORE_NUM_BLOCKS).

(** The bitmap once the allocator has handed out every block below [f]
    that is not reserved, and nothing else is marked. *)
Definition allocated_up_to (bm : bitmap_t) (f : Z) : Prop :=
  forall j, bitmap_test bm j = true <-> (0 <= j < f /\ in_reserved j = false).

(** A store as [block_store_create] and [block_store_deserialize] build
    it: the bitmap is present with one bit per block, and the block
    array has its full size. *)
Definition store_ok (s : block_store_t) : Prop :=
  (exists bm, bitmap s = Some bm /\ bitmap_ok bm /\
              bit_count bm = BLOCK_STORE_NUM_BLOCKS) /\
  Z.of_nat (length (data s)) = BLOCK_STORE_NUM_BYTES.

(** Block [i] of the array [d] holds a byte that is not zero. *)
Definition has_nonzero_byte (d : list byte) (i : Z) : Prop :=
  exists k, 0 <= k < BLOCK_SIZE_BYTES /\
            data_at d (i * BLOCK_SIZE_BYTES + k) <> x00.

(** An environment in which no allocation, [open] or [write] fails. *)
Definition env_ok (e : sys_env) : Prop :=
  calloc_ok e = true /\ bitmap_alloc_ok e = true /\ open_ok e = true /\
  BLOCK_STORE_NUM_BYTES <= write_limit e.

(** No bit of the reserved range is set. *)
Definition reserved_clear (bm : bitmap_t) : Prop :=
  forall j, in_reserved j = true -> bitmap_test bm j = false.

(** Every block of [0, N) outside the reserved range is in use. *)
Definition all_unreserved_used (bm : bitmap_t) : Prop :=
  forall j, 0 <= j < BLOCK_STORE_NUM_BLOCKS -> in_reserved j = false ->
            bitmap_test bm j = true.

(** The bytes of block [i] in the array [d]. *)
Definition block_bytes (d : list byte) (i : Z) : list byte :=
  take (Z.to_nat BLOCK_SIZE_BYTES) (drop (Z.to_nat (i * BLOCK_SIZE_BYTES)) d).

(** The constants as a [block_store.h] can define them: sizes that fit
    the C types, and a reserved range inside the store. *)
Definition config_ok : Prop :=
  0 < BLOCK_STORE_NUM_BLOCKS /\ 0 < BLOCK_SIZE_BYTES /\
  BLOCK_STORE_NUM_BYTES < 2 ^ 63 /\
  0 <= BITMAP_START_BLOCK /\ 0 <= BITMAP_NUM_BLOCKS /\
  BITMAP_START_BLOCK + BITMAP_NUM_BLOCKS <= BLOCK_STORE_NUM_BLOCKS.

End BlockStore.

(** ** A small store

    Sixteen blocks of four bytes each, the first two reserved for the
    bitmap; an environment in which nothing fails; and the store that
    [block_store_create] builds there. *)

Definition small_config : Config := mk_config 16 4 0 2.

Definition plain_env : sys_env := mk_env true true true 64.

Definition fresh_store : block_store_t :=
  mk_block_store (Some (mk_bitmap 16 [0; 0])) (replicate 64 x00).

Definition disk_path : string := "disk.img".

(** The bitmap of the fresh store; a file in which every byte is 1; and
    the store that loading this file gives. *)
Definition small_bitmap : bitmap_t := mk_bitmap 16 [0; 0].

Definition full_image : list byte := replicate 64 x01.

Definition loaded_store : block_store_t :=
  mk_block_store (Some (mk_bitmap 16 [255; 255])) full_image.

(** * Facts *)

(** ** [size_t] arithmetic *)

Lemma modulus_pos : 0 < SizeT.modulus.
Proof. reflexivity. Qed.

Lemma wrap_small x : SizeT.in_range x -> SizeT.wrap x = x.
Proof.
  unfold SizeT.in_range, SizeT.wrap, SizeT.SIZE_MAX. intros H.
  apply Z.mod_small. lia.
Qed.

Lemma wrap_in_range x : SizeT.in_range (SizeT.wrap x).
Proof.
  unfold SizeT.in_range, SizeT.wrap, SizeT.SIZE_MAX.
  pose proof (Z.mod_pos_bound x SizeT.modulus modulus_pos). lia.
Qed.


Lemma sub_no_underflow t u :
  SizeT.in_range t -> 0 <= u <= t -> SizeT.sub t u = t - u.
Proof.
  unfold SizeT.in_range, SizeT.SIZE_MAX, SizeT.sub, SizeT.wrap.
  intros Ht Hu. apply Z.mod_small. lia.
Qed.

Lemma sub_underflow t u :
  SizeT.in_range t -> SizeT.in_range u -> t < u ->
  SizeT.sub t u = SizeT.modulus - (u - t).
Proof.
  unfold SizeT.in_range, SizeT.SIZE_MAX, SizeT.sub, SizeT.wrap.
  intros Ht Hu Hlt.
  replace (t - u) with ((SizeT.modulus - (u - t)) + (-1) * SizeT.modulus)
    by lia.
  rewrite Z_mod_plus_full. apply Z.mod_small. lia.
Qed.

(** ** Bits of a byte *)

Lemma testbit_one k : Z.testbit 1 k = (k =? 0).
Proof. destruct k as [|p|p]; try reflexivity. Qed.

Lemma testbit_mask k j :
  0 <= k -> 0 <= j -> Z.testbit (Z.shiftl 1 k) j = (j =? k).
Proof.
  intros Hk Hj. rewrite Z.shiftl_spec by assumption. rewrite testbit_one.
  destruct (Z.eqb_spec (j - k) 0), (Z.eqb_spec j k); auto; lia.
Qed.

Lemma testbit_set_bit b k j :
  0 <= k -> 0 <= j ->
  Z.testbit (Z.lor b (Z.shiftl 1 k)) j = Z.testbit b j || (j =? k).
Proof. intros. rewrite Z.lor_spec, testbit_mask; auto. Qed.

Lemma testbit_clear_bit b k j :
  0 <= k -> 0 <= j ->
  Z.testbit (Z.land b (Z.lnot (Z.shiftl 1 k))) j
  = Z.testbit b j && negb (j =? k).
Proof.
  intros. rewrite Z.land_spec, Z.lnot_spec, testbit_mask; auto.
Qed.

Lemma small_index_cases k :
  0 <= k < 8 ->
  k = 0 \/ k = 1 \/ k = 2 \/ k = 3 \/ k = 4 \/ k = 5 \/ k = 6 \/ k = 7.
Proof. lia. Qed.

Ltac each_bit_index H :=
  destruct (small_index_cases _ H)
    as [->|[->|[->|[->|[->|[->|[->| ->]]]]]]].

Lemma popcount8_set_bit b k :
  0 <= k < 8 -> Z.testbit b k = false ->
  popcount8 (Z.lor b (Z.shiftl 1 k)) = popcount8 b + 1.
Proof.
  intros Hk Hclear. unfold popcount8, bit_value.
  rewrite !testbit_set_bit by lia.
  each_bit_index Hk; rewrite Hclear; simpl; rewrite ?orb_false_r; lia.
Qed.

Lemma popcount8_clear_bit b k :
  0 <= k < 8 -> Z.testbit b k = true ->
  popcount8 (Z.land b (Z.lnot (Z.shiftl 1 k))) = popcount8 b - 1.
Proof.
  intros Hk Hset. unfold popcount8, bit_value.
  rewrite !testbit_clear_bit by lia.
  each_bit_index Hk; rewrite Hset; simpl; rewrite ?andb_true_r; lia.
Qed.

Lemma popcount8_zero : popcount8 0 = 0.
Proof. reflexivity. Qed.

(** ** The bitmap *)

Lemma byte_at_insert_eq (l : list Z) j v :
  0 <= j < Z.of_nat (length l) -> byte_at (<[Z.to_nat j := v]> l) j = v.
Proof.
  intros Hj. unfold byte_at.
  destruct (Z.ltb_spec j 0); [lia|].
  rewrite list_lookup_insert_eq by lia. reflexivity.
Qed.

Lemma byte_at_insert_ne (l : list Z) j j' v :
  0 <= j -> j <> j' -> byte_at (<[Z.to_nat j := v]> l) j' = byte_at l j'.
Proof.
  intros Hj Hne. unfold byte_at.
  destruct (Z.ltb_spec j' 0); [reflexivity|].
  rewrite list_lookup_insert_ne by lia. reflexivity.
Qed.

Lemma byte_at_replicate n j : byte_at (replicate n 0) j = 0.
Proof.
  unfold byte_at. destruct (j <? 0); [reflexivity|].
  destruct (replicate n 0 !! Z.to_nat j) as [v|] eqn:E; [|reflexivity].
  apply lookup_replicate in E. simpl. tauto.
Qed.

Lemma index_split i j : i / 8 = j / 8 -> i mod 8 = j mod 8 -> i = j.
Proof.
  intros Hd Hm.
  rewrite (Z.div_mod i 8), (Z.div_mod j 8) by lia. congruence.
Qed.

Lemma byte_index_bound i n :
  0 <= i < n -> 0 <= i / 8 < byte_count n.
Proof.
  intros Hi. unfold byte_count. split.
  - apply Z.div_pos; lia.
  - apply Z.div_lt_upper_bound; [lia|].
    pose proof (Z.mul_div_le (n + 7) 8 ltac:(lia)).
    pose proof (Z.mod_pos_bound (n + 7) 8 ltac:(lia)).
    pose proof (Z.div_mod (n + 7) 8 ltac:(lia)). lia.
Qed.

Lemma bitmap_test_set bm i j :
  0 <= i / 8 < Z.of_nat (length (bm_bytes bm)) ->
  bitmap_test (bitmap_set bm i) j = if j =? i then true else bitmap_test bm j.
Proof.
  intros Hi. unfold bitmap_test, bitmap_set. simpl.
  pose proof (Z.mod_pos_bound i 8 ltac:(lia)).
  pose proof (Z.mod_pos_bound j 8 ltac:(lia)).
  destruct (Z.eq_dec (j / 8) (i / 8)) as [Hd|Hd].
  - rewrite Hd, byte_at_insert_eq by lia.
    rewrite testbit_set_bit by lia.
    destruct (Z.eqb_spec j i) as [->|Hne].
    + rewrite Z.eqb_refl. apply orb_true_r.
    + destruct (Z.eqb_spec (j mod 8) (i mod 8)) as [Hm|Hm].
      * exfalso. apply Hne. apply index_split; assumption.
      * apply orb_false_r.
  - rewrite byte_at_insert_ne by lia.
    destruct (Z.eqb_spec j i) as [->|Hne]; [congruence|reflexivity].
Qed.

Lemma bitmap_test_reset bm i j :
  0 <= i / 8 < Z.of_nat (length (bm_bytes bm)) ->
  bitmap_test (bitmap_reset bm i) j
  = if j =? i then false else bitmap_test bm j.
Proof.
  intros Hi. unfold bitmap_test, bitmap_reset. simpl.
  pose proof (Z.mod_pos_bound i 8 ltac:(lia)).
  pose proof (Z.mod_pos_bound j 8 ltac:(lia)).
  destruct (Z.eq_dec (j / 8) (i / 8)) as [Hd|Hd].
  - rewrite Hd, byte_at_insert_eq by lia.
    rewrite testbit_clear_bit by lia.
    destruct (Z.eqb_spec j i) as [->|Hne].
    + rewrite Z.eqb_refl. apply andb_false_r.
    + destruct (Z.eqb_spec (j mod 8) (i mod 8)) as [Hm|Hm].
      * exfalso. apply Hne. apply index_split; assumption.
      * apply andb_true_r.
  - rewrite byte_at_insert_ne by lia.
    destruct (Z.eqb_spec j i) as [->|Hne]; [congruence|reflexivity].
Qed.

Lemma bitmap_test_create ok n bm i :
  bitmap_create ok n = Some bm -> bitmap_test bm i = false.
Proof.
  unfold bitmap_create. destruct ok; [|discriminate].
  intros [= <-]. unfold bitmap_test. simpl.
  rewrite byte_at_replicate. apply Z.bits_0.
Qed.

Lemma bitmap_create_ok ok n bm :
  0 <= n -> bitmap_create ok n = Some bm -> bitmap_ok bm /\ bit_count bm = n.
Proof.
  intros Hn Hc. split; [split; [|split]|].
  - unfold bitmap_create in Hc. destruct ok; [|discriminate].
    injection Hc as <-. assumption.
  - unfold bitmap_create in Hc. destruct ok; [|discriminate].
    injection Hc as <-. simpl. rewrite length_replicate.
    apply Z2Nat.id. unfold byte_count. apply Z.div_pos; lia.
  - intros i _. eapply bitmap_test_create; eassumption.
  - unfold bitmap_create in Hc. destruct ok; [|discriminate].
    injection Hc as <-. reflexivity.
Qed.

Lemma bitmap_set_ok bm i :
  bitmap_ok bm -> 0 <= i < bit_count bm -> bitmap_ok (bitmap_set bm i).
Proof.
  intros (Hn & Hlen & Hpad) Hi.
  pose proof (byte_index_bound i _ Hi) as Hb.
  split; [|split].
  - assumption.
  - simpl. rewrite length_insert. assumption.
  - intros j Hj. rewrite bitmap_test_set by lia.
    simpl in Hj. destruct (Z.eqb_spec j i); [lia|]. apply Hpad. assumption.
Qed.

Lemma bitmap_reset_ok bm i :
  bitmap_ok bm -> 0 <= i < bit_count bm -> bitmap_ok (bitmap_reset bm i).
Proof.
  intros (Hn & Hlen & Hpad) Hi.
  pose proof (byte_index_bound i _ Hi) as Hb.
  split; [|split].
  - assumption.
  - simpl. rewrite length_insert. assumption.
  - intros j Hj. rewrite bitmap_test_reset by lia.
    simpl in Hj. destruct (Z.eqb_spec j i); [reflexivity|].
    apply Hpad. assumption.
Qed.

Lemma bitmap_ok_byte_index bm i :
  bitmap_ok bm -> 0 <= i < bit_count bm ->
  0 <= i / 8 < Z.of_nat (length (bm_bytes bm)).
Proof.
  intros (Hn & Hlen & _) Hi. rewrite Hlen. apply byte_index_bound, Hi.
Qed.

Lemma sum_popcount_insert (l : list Z) n v :
  (n < length l)%nat ->
  sum_popcount (<[n := v]> l)
  = sum_popcount l - popcount8 (default 0 (l !! n)) + popcount8 v.
Proof.
  revert n. induction l as [|b l IH]; intros n Hn; simpl in Hn; [lia|].
  destruct n as [|n]; simpl.
  - lia.
  - rewrite IH by lia. lia.
Qed.

Lemma sum_popcount_replicate n : sum_popcount (replicate n 0) = 0.
Proof. induction n as [|n IH]; simpl; [reflexivity|]. exact IH. Qed.

Lemma byte_at_default (l : list Z) j :
  0 <= j -> byte_at l j = default 0 (l !! Z.to_nat j).
Proof. intros Hj. unfold byte_at. destruct (Z.ltb_spec j 0); [lia|auto]. Qed.

Lemma bitmap_total_set_set bm i :
  bitmap_ok bm -> 0 <= i < bit_count bm -> bitmap_test bm i = false ->
  bitmap_total_set (bitmap_set bm i) = bitmap_total_set bm + 1.
Proof.
  intros Hok Hi Hclear.
  pose proof (bitmap_ok_byte_index bm i Hok Hi) as Hb.
  unfold bitmap_total_set, bitmap_set. simpl bm_bytes.
  rewrite sum_popcount_insert by lia.
  rewrite <- byte_at_default by lia.
  rewrite popcount8_set_bit.
  - lia.
  - apply Z.mod_pos_bound. lia.
  - exact Hclear.
Qed.

Lemma bitmap_total_set_reset bm i :
  bitmap_ok bm -> 0 <= i < bit_count bm -> bitmap_test bm i = true ->
  bitmap_total_set (bitmap_reset bm i) = bitmap_total_set bm - 1.
Proof.
  intros Hok Hi Hset.
  pose proof (bitmap_ok_byte_index bm i Hok Hi) as Hb.
  unfold bitmap_total_set, bitmap_reset. simpl bm_bytes.
  rewrite sum_popcount_insert by lia.
  rewrite <- byte_at_default by lia.
  rewrite popcount8_clear_bit.
  - lia.
  - apply Z.mod_pos_bound. lia.
  - exact Hset.
Qed.

Lemma bitmap_total_set_create ok n bm :
  bitmap_create ok n = Some bm -> bitmap_total_set bm = 0.
Proof.
  unfold bitmap_create. destruct ok; [|discriminate]. intros [= <-].
  apply sum_popcount_replicate.
Qed.

(** The sum of the population counts is the number of set bits. *)

Lemma count_set_from_app bm i a b :
  count_set_from bm i (a + b)
  = count_set_from bm i a + count_set_from bm (i + Z.of_nat a) b.
Proof.
  revert i. induction a as [|a IH]; intros i; simpl count_set_from.
  - simpl. rewrite Z.add_0_r. reflexivity.
  - change (S a + b)%nat with (S (a + b)). simpl count_set_from.
    rewrite IH. replace (i + 1 + Z.of_nat a) with (i + Z.of_nat (S a)) by lia.
    lia.
Qed.

Lemma count_set_from_clear bm i todo :
  (forall j, i <= j < i + Z.of_nat todo -> bitmap_test bm j = false) ->
  count_set_from bm i todo = 0.
Proof.
  revert i. induction todo as [|todo IH]; intros i Hclear.
  - reflexivity.
  - simpl count_set_from. rewrite Hclear by lia. rewrite IH; [reflexivity|].
    intros j Hj. apply Hclear. lia.
Qed.

Lemma bit_of_byte k t : 0 <= t < 8 -> (8 * k + t) / 8 = k /\ (8 * k + t) mod 8 = t.
Proof.
  intros Ht. split.
  - rewrite Z.mul_comm, Z.div_add_l by lia. rewrite Z.div_small by lia. lia.
  - rewrite Z.mul_comm, Z.add_comm, Z.mod_add by lia. apply Z.mod_small; lia.
Qed.

Lemma count_set_from_byte bm k :
  count_set_from bm (8 * k) 8 = popcount8 (byte_at (bm_bytes bm) k).
Proof.
  simpl count_set_from. unfold bitmap_test, popcount8, bit_value.
  replace (8 * k) with (8 * k + 0) at 1 2 by lia.
  replace (8 * k + 1 + 1) with (8 * k + 2) by lia.
  replace (8 * k + 2 + 1) with (8 * k + 3) by lia.
  replace (8 * k + 3 + 1) with (8 * k + 4) by lia.
  replace (8 * k + 4 + 1) with (8 * k + 5) by lia.
  replace (8 * k + 5 + 1) with (8 * k + 6) by lia.
  replace (8 * k + 6 + 1) with (8 * k + 7) by lia.
  destruct (bit_of_byte k 0 ltac:(lia)) as [-> ->].
  destruct (bit_of_byte k 1 ltac:(lia)) as [-> ->].
  destruct (bit_of_byte k 2 ltac:(lia)) as [-> ->].
  destruct (bit_of_byte k 3 ltac:(lia)) as [-> ->].
  destruct (bit_of_byte k 4 ltac:(lia)) as [-> ->].
  destruct (bit_of_byte k 5 ltac:(lia)) as [-> ->].
  destruct (bit_of_byte k 6 ltac:(lia)) as [-> ->].
  destruct (bit_of_byte k 7 ltac:(lia)) as [-> ->].
  lia.
Qed.

Lemma count_set_from_ext bm1 bm2 i todo :
  (forall j, i <= j < i + Z.of_nat todo ->
             bitmap_test bm1 j = bitmap_test bm2 j) ->
  count_set_from bm1 i todo = count_set_from bm2 i todo.
Proof.
  revert i. induction todo as [|todo IH]; intros i Hext; simpl.
  - reflexivity.
  - rewrite Hext by lia. rewrite (IH (i + 1)); [reflexivity|].
    intros j Hj. apply Hext. lia.
Qed.

Lemma sum_popcount_snoc l b : sum_popcount (l ++ [b]) = sum_popcount l + popcount8 b.
Proof. induction l as [|a l IH]; simpl; [lia|]. rewrite IH. lia. Qed.

Lemma count_all_bits n (l : list Z) :
  count_set_from (mk_bitmap n l) 0 (8 * length l) = sum_popcount l.
Proof.
  induction l as [|b l IH] using rev_ind.
  - reflexivity.
  - rewrite length_app. simpl length.
    replace (8 * (length l + 1))%nat with (8 * length l + 8)%nat by lia.
    rewrite count_set_from_app, sum_popcount_snoc.
    f_equal.
    + rewrite <- IH. apply count_set_from_ext. intros j Hj.
      unfold bitmap_test. simpl bm_bytes.
      assert (0 <= j / 8 < Z.of_nat (length l)) as Hb.
      { split; [apply Z.div_pos; lia|apply Z.div_lt_upper_bound; lia]. }
      rewrite !byte_at_default by lia.
      rewrite lookup_app_l by lia. reflexivity.
    + replace (0 + Z.of_nat (8 * length l)) with (8 * Z.of_nat (length l))
        by lia.
      rewrite count_set_from_byte. simpl bm_bytes.
      rewrite byte_at_default by lia. rewrite Nat2Z.id.
      rewrite lookup_app_r by lia. rewrite Nat.sub_diag. reflexivity.
Qed.

Lemma bitmap_total_set_count bm :
  bitmap_ok bm -> bitmap_total_set bm = count_set bm.
Proof.
  intros (Hn & Hlen & Hpad). unfold bitmap_total_set, count_set.
  destruct bm as [n l]. simpl in *.
  rewrite <- (count_all_bits n l).
  assert (n <= 8 * Z.of_nat (length l)) as Hle.
  { rewrite Hlen. unfold byte_count.
    pose proof (Z.mod_pos_bound (n + 7) 8 ltac:(lia)).
    pose proof (Z.div_mod (n + 7) 8 ltac:(lia)). lia. }
  replace (8 * length l)%nat
    with (Z.to_nat n + (8 * length l - Z.to_nat n))%nat by lia.
  rewrite count_set_from_app.
  rewrite (count_set_from_clear _ (0 + Z.of_nat (Z.to_nat n))).
  - lia.
  - intros j Hj. apply Hpad. lia.
Qed.

Lemma count_set_from_bound bm i todo :
  0 <= count_set_from bm i todo <= Z.of_nat todo.
Proof.
  revert i. induction todo as [|todo IH]; intros i; simpl count_set_from.
  - lia.
  - specialize (IH (i + 1)). destruct (bitmap_test bm i); lia.
Qed.

Lemma bitmap_total_set_bound bm :
  bitmap_ok bm -> 0 <= bitmap_total_set bm <= bit_count bm.
Proof.
  intros Hok. rewrite bitmap_total_set_count by assumption.
  unfold count_set.
  pose proof (count_set_from_bound bm 0 (Z.to_nat (bit_count bm))).
  destruct Hok as (Hn & _). lia.
Qed.

(** ** The block store *)

Section BlockStoreFacts.

Context {cfg : Config}.

Lemma config_ok_total_in_range :
  config_ok -> SizeT.in_range BLOCK_STORE_NUM_BLOCKS.
Proof.
  unfold config_ok, BLOCK_STORE_NUM_BYTES, SizeT.in_range, SizeT.SIZE_MAX,
    SizeT.modulus.
  intros (HN & HB & Hbytes & _).
  assert (2 ^ 63 < 2 ^ 64 - 1) by reflexivity. nia.
Qed.

Lemma in_reserved_true i :
  in_reserved i = true <->
  BITMAP_START_BLOCK <= i < BITMAP_START_BLOCK + BITMAP_NUM_BLOCKS.
Proof. unfold in_reserved. rewrite andb_true_iff. lia. Qed.

Lemma in_reserved_false i :
  in_reserved i = false <->
  ~ (BITMAP_START_BLOCK <= i < BITMAP_START_BLOCK + BITMAP_NUM_BLOCKS).
Proof.
  rewrite <- in_reserved_true. destruct (in_reserved i); split; congruence.
Qed.

(** What the allocation loop computes: the first index from [i] on that
    is neither reserved nor in use, which it marks; or [SIZE_MAX] with
    the bitmap untouched when there is none among the [todo] indices. *)
Lemma allocate_scan_spec bm i todo :
  (allocate_scan bm i todo = (SizeT.SIZE_MAX, bm) /\
   forall j, i <= j < i + Z.of_nat todo ->
             in_reserved j = true \/ bitmap_test bm j = true) \/
  (exists r, allocate_scan bm i todo = (r, bitmap_set bm r) /\
             i <= r < i + Z.of_nat todo /\
             in_reserved r = false /\ bitmap_test bm r = false /\
             forall j, i <= j < r ->
                       in_reserved j = true \/ bitmap_test bm j = true).
Proof.
  revert i. induction todo as [|todo IH]; intros i.
  - left. split; [reflexivity|]. intros j Hj. lia.
  - simpl allocate_scan.
    destruct (in_reserved i) eqn:Hres.
    + destruct (IH (i + 1)) as [[Heq Hall]|(r & Heq & Hr & Hnr & Hclr & Hall)].
      * left. split; [exact Heq|]. intros j Hj.
        destruct (Z.eq_dec j i) as [->|Hne]; [left; exact Hres|].
        apply Hall. lia.
      * right. exists r. repeat split; try assumption; try lia.
        intros j Hj.
        destruct (Z.eq_dec j i) as [->|Hne]; [left; exact Hres|].
        apply Hall. lia.
    + destruct (bitmap_test bm i) eqn:Hbit; simpl negb; cbv iota.
      * destruct (IH (i + 1)) as [[Heq Hall]|(r & Heq & Hr & Hnr & Hclr & Hall)].
        -- left. split; [exact Heq|]. intros j Hj.
           destruct (Z.eq_dec j i) as [->|Hne]; [right; exact Hbit|].
           apply Hall. lia.
        -- right. exists r. repeat split; try assumption; try lia.
           intros j Hj.
           destruct (Z.eq_dec j i) as [->|Hne]; [right; exact Hbit|].
           apply Hall. lia.
      * right. exists i. repeat split; try assumption; try lia.
Qed.

(** The two revisions of the loop agree where nothing is reserved, and
    differ on a fresh bitmap whose first block is reserved: the early
    loop hands out block 0. *)
Lemma allocate_scan_early_agrees bm i todo :
  (forall j, i <= j < i + Z.of_nat todo -> in_reserved j = false) ->
  allocate_scan_early bm i todo = allocate_scan bm i todo.
Proof.
  revert i. induction todo as [|todo IH]; intros i Hnone.
  - reflexivity.
  - simpl. rewrite (Hnone i) by lia.
    destruct (negb (bitmap_test bm i)); [reflexivity|].
    apply IH. intros j Hj. apply Hnone. lia.
Qed.

Lemma allocate_scan_early_fresh bm todo :
  bitmap_test bm 0 = false ->
  allocate_scan_early bm 0 (S todo) = (0, bitmap_set bm 0).
Proof. intros Hclear. simpl. rewrite Hclear. reflexivity. Qed.

Lemma store_ok_bitmap s :
  store_ok s ->
  exists bm, bitmap s = Some bm /\ bitmap_ok bm /\
             bit_count bm = BLOCK_STORE_NUM_BLOCKS.
Proof. intros [H _]. exact H. Qed.

Lemma block_store_create_ok e s :
  config_ok -> block_store_create e = Some s ->
  store_ok s /\
  (forall bm i, bitmap s = Some bm -> bitmap_test bm i = false) /\
  data s = replicate (Z.to_nat BLOCK_STORE_NUM_BYTES) x00.
Proof.
  intros Hcfg. unfold block_store_create.
  destruct (calloc_ok e); [|discriminate].
  destruct (bitmap_create (bitmap_alloc_ok e) BLOCK_STORE_NUM_BLOCKS)
    as [bm|] eqn:Hbm; [|discriminate].
  intros [= <-]. simpl.
  destruct Hcfg as (HN & HB & Hbytes & _).
  assert (0 <= BLOCK_STORE_NUM_BLOCKS) as HN0 by lia.
  destruct (bitmap_create_ok _ _ _ HN0 Hbm) as [Hok Hcount].
  split; [split|split].
  - exists bm. auto.
  - simpl. rewrite length_replicate. apply Z2Nat.id.
    unfold BLOCK_STORE_NUM_BYTES. nia.
  - intros bm' i [= <-]. eapply bitmap_test_create; eassumption.
  - reflexivity.
Qed.

(** *** First-fit allocation from a fresh store *)

Lemma elem_of_unreserved_from j i todo :
  j ∈ unreserved_from i todo <->
  i <= j < i + Z.of_nat todo /\ in_reserved j = false.
Proof.
  revert i. induction todo as [|todo IH]; intros i; simpl unreserved_from.
  - rewrite elem_of_nil. lia.
  - destruct (in_reserved i) eqn:Hres.
    + rewrite IH. split.
      * intros [Hj Hnr]. split; [lia|exact Hnr].
      * intros [Hj Hnr]. split; [|exact Hnr].
        destruct (Z.eq_dec j i) as [->|Hne]; [congruence|lia].
    + rewrite elem_of_cons, IH. split.
      * intros [->|[Hj Hnr]]; split; try assumption; lia.
      * intros [Hj Hnr].
        destruct (Z.eq_dec j i) as [->|Hne]; [left; reflexivity|].
        right. split; [lia|exact Hnr].
Qed.

Lemma unreserved_from_sorted i todo :
  StronglySorted Z.lt (unreserved_from i todo).
Proof.
  revert i. induction todo as [|todo IH]; intros i; simpl unreserved_from.
  - constructor.
  - destruct (in_reserved i); [apply IH|].
    constructor; [apply IH|].
    apply Forall_forall. intros j Hj.
    apply elem_of_unreserved_from in Hj. lia.
Qed.

Lemma allocated_up_to_fresh bm :
  (forall i, bitmap_test bm i = false) -> allocated_up_to bm 0.
Proof.
  intros Hclear j. rewrite Hclear. split; [discriminate|lia].
Qed.

Lemma allocated_up_to_skip bm f :
  allocated_up_to bm f -> in_reserved f = true -> allocated_up_to bm (f + 1).
Proof.
  intros Hup Hres j. rewrite (Hup j). split.
  - intros [Hj Hnr]. split; [lia|exact Hnr].
  - intros [Hj Hnr]. split; [|exact Hnr].
    destruct (Z.eq_dec j f) as [->|Hne]; [congruence|lia].
Qed.

Lemma allocate_scan_at_frontier bm f :
  bitmap_ok bm -> bit_count bm = BLOCK_STORE_NUM_BLOCKS ->
  allocated_up_to bm f -> 0 <= f < BLOCK_STORE_NUM_BLOCKS ->
  in_reserved f = false ->
  allocate_scan bm 0 (Z.to_nat block_store_get_total_blocks)
  = (f, bitmap_set bm f) /\
  allocated_up_to (bitmap_set bm f) (f + 1).
Proof.
  intros Hok Hcount Hup Hf Hnr.
  assert (bitmap_test bm f = false) as Hclear.
  { destruct (bitmap_test bm f) eqn:E; [|reflexivity].
    apply Hup in E. lia. }
  split.
  - destruct (allocate_scan_spec bm 0
                (Z.to_nat block_store_get_total_blocks))
      as [[_ Hall]|(r & Heq & Hr & Hrn & Hrc & Hall)].
    + exfalso. unfold block_store_get_total_blocks in Hall.
      destruct (Hall f ltac:(lia)); congruence.
    + assert (r = f) as ->; [|exact Heq].
      destruct (Z.lt_trichotomy r f) as [Hlt|[Heqr|Hgt]]; [|exact Heqr|].
      * assert (bitmap_test bm r = true) as Hset
          by (apply Hup; split; [lia|assumption]).
        congruence.
      * destruct (Hall f ltac:(lia)); congruence.
  - intros j. rewrite bitmap_test_set
      by (apply bitmap_ok_byte_index; [assumption|lia]).
    destruct (Z.eqb_spec j f) as [->|Hne].
    + split; [intros _; split; [lia|exact Hnr]|reflexivity].
    + rewrite (Hup j). split; intros [Hj Hjn]; (split; [lia|exact Hjn]).
Qed.

Lemma allocate_scan_exhausted bm :
  allocated_up_to bm BLOCK_STORE_NUM_BLOCKS ->
  allocate_scan bm 0 (Z.to_nat block_store_get_total_blocks)
  = (SizeT.SIZE_MAX, bm).
Proof.
  intros Hup.
  destruct (allocate_scan_spec bm 0 (Z.to_nat block_store_get_total_blocks))
    as [[Heq _]|(r & _ & Hr & Hrn & Hrc & _)]; [exact Heq|].
  exfalso. unfold block_store_get_total_blocks in Hr.
  assert (bitmap_test bm r = true) as Hset by (apply Hup; split; [lia|exact Hrn]).
  congruence.
Qed.

Lemma allocate_many_from_frontier todo : forall f bm d,
  bitmap_ok bm -> bit_count bm = BLOCK_STORE_NUM_BLOCKS ->
  allocated_up_to bm f -> 0 <= f ->
  f + Z.of_nat todo = BLOCK_STORE_NUM_BLOCKS ->
  exists bm',
    allocate_many (length (unreserved_from f todo))
      (Some (mk_block_store (Some bm) d))
    = (unreserved_from f todo, Some (mk_block_store (Some bm') d)) /\
    bitmap_ok bm' /\ bit_count bm' = BLOCK_STORE_NUM_BLOCKS /\
    allocated_up_to bm' BLOCK_STORE_NUM_BLOCKS.
Proof.
  induction todo as [|todo IH]; intros f bm d Hok Hcount Hup Hf Hsum.
  - assert (f = BLOCK_STORE_NUM_BLOCKS) as HfN by lia.
    exists bm. simpl. rewrite <- HfN at 2. auto.
  - simpl unreserved_from. destruct (in_reserved f) eqn:Hres.
    + apply IH; try assumption; try lia.
      apply allocated_up_to_skip; assumption.
    + destruct (allocate_scan_at_frontier bm f Hok Hcount Hup ltac:(lia) Hres)
        as [Hscan Hup'].
      destruct (IH (f + 1) (bitmap_set bm f) d) as (bm' & Hmany & Hrest);
        try assumption; try lia.
      { apply bitmap_set_ok; [assumption|lia]. }
      exists bm'. split; [|exact Hrest].
      simpl length. simpl allocate_many. simpl bitmap. rewrite Hscan.
      simpl data. rewrite Hmany. reflexivity.
Qed.

Lemma strictly_sorted_NoDup (l : list Z) : StronglySorted Z.lt l -> NoDup l.
Proof.
  induction 1 as [|a l Hs IH Hall]; constructor; [|exact IH].
  intros Hin. rewrite Forall_forall in Hall. specialize (Hall a Hin). lia.
Qed.

Lemma block_store_allocate_unfold bm d :
  block_store_allocate (Some (mk_block_store (Some bm) d))
  = (fst (allocate_scan bm 0 (Z.to_nat block_store_get_total_blocks)),
     Some (mk_block_store
             (Some (snd (allocate_scan bm 0
                           (Z.to_nat block_store_get_total_blocks)))) d)).
Proof.
  unfold block_store_allocate. simpl bitmap. cbv iota.
  destruct (allocate_scan bm 0 (Z.to_nat block_store_get_total_blocks)).
  reflexivity.
Qed.

(** X25.  In the complete revision of the file: on a freshly created
    store, as many calls of
    [block_store_allocate] as there are block indices in [0, N) outside
    the reserved range return exactly those indices, each once and in
    ascending order; no returned index lies in the reserved range or
    equals the [SIZE_MAX] sentinel; and the call after them returns
    [SIZE_MAX]. *)
Theorem allocate_fresh_first_fit (e : sys_env) (s : block_store_t) :
  config_ok ->
  block_store_create e = Some s ->
  exists s',
    allocate_many (length unreserved_ids) (Some s)
    = (unreserved_ids, Some s') /\
    fst (block_store_allocate (Some s')) = SizeT.SIZE_MAX /\
    (forall i, i ∈ unreserved_ids <->
               0 <= i < BLOCK_STORE_NUM_BLOCKS /\
               ~ (BITMAP_START_BLOCK <= i
                  < BITMAP_START_BLOCK + BITMAP_NUM_BLOCKS)) /\
    StronglySorted Z.lt unreserved_ids /\
    NoDup unreserved_ids /\
    (forall i, i ∈ unreserved_ids -> i <> SizeT.SIZE_MAX).
Proof.
  intros Hcfg Hcreate.
  destruct (block_store_create_ok e s Hcfg Hcreate)
    as (Hstore & Hclear & _).
  destruct (store_ok_bitmap s Hstore) as (bm & Hbm & Hok & Hcount).
  pose proof (config_ok_total_in_range Hcfg) as Hrange.
  destruct Hcfg as (HN & _).
  destruct (allocate_many_from_frontier (Z.to_nat BLOCK_STORE_NUM_BLOCKS)
              0 bm (data s) Hok Hcount)
    as (bm' & Hmany & Hok' & Hcount' & Hup'); try lia.
  { apply allocated_up_to_fresh. intros i. eapply Hclear, Hbm. }
  assert (forall i, i ∈ unreserved_ids <->
            0 <= i < BLOCK_STORE_NUM_BLOCKS /\
            ~ (BITMAP_START_BLOCK <= i
               < BITMAP_START_BLOCK + BITMAP_NUM_BLOCKS)) as Hmem.
  { intros i. unfold unreserved_ids.
    rewrite elem_of_unreserved_from, in_reserved_false. lia. }
  exists (mk_block_store (Some bm') (data s)).
  split; [|split; [|split; [|split; [|split]]]].
  - destruct s as [b d]. simpl in Hbm. subst b. exact Hmany.
  - rewrite block_store_allocate_unfold.
    rewrite (allocate_scan_exhausted bm' Hup'). reflexivity.
  - exact Hmem.
  - apply unreserved_from_sorted.
  - apply strictly_sorted_NoDup, unreserved_from_sorted.
  - intros i Hi. apply Hmem in Hi.
    unfold SizeT.in_range in Hrange. lia.
Qed.

(** *** The calls that change the bitmap keep the store well formed *)

Lemma store_ok_intro bm d :
  bitmap_ok bm -> bit_count bm = BLOCK_STORE_NUM_BLOCKS ->
  Z.of_nat (length d) = BLOCK_STORE_NUM_BYTES ->
  store_ok (mk_block_store (Some bm) d).
Proof. intros. split; [exists bm; auto|assumption]. Qed.

Lemma block_store_allocate_ok s :
  store_ok s ->
  exists s', snd (block_store_allocate (Some s)) = Some s' /\
             store_ok s' /\ data s' = data s.
Proof.
  intros [(bm & Hbm & Hok & Hcount) Hlen].
  destruct s as [b d]. simpl in Hbm, Hlen. subst b.
  rewrite block_store_allocate_unfold. simpl snd.
  eexists. split; [reflexivity|]. split; [|reflexivity].
  destruct (allocate_scan_spec bm 0 (Z.to_nat block_store_get_total_blocks))
    as [[Heq _]|(r & Heq & Hr & _)]; rewrite Heq; simpl snd.
  - apply store_ok_intro; assumption.
  - unfold block_store_get_total_blocks in Hr.
    apply store_ok_intro; try assumption.
    apply bitmap_set_ok; [assumption|lia].
Qed.

Lemma block_store_request_ok s id :
  store_ok s -> 0 <= id ->
  exists s', snd (block_store_request (Some s) id) = Some s' /\
             store_ok s' /\ data s' = data s.
Proof.
  intros [(bm & Hbm & Hok & Hcount) Hlen] Hid.
  destruct s as [b d]. simpl in Hbm, Hlen. subst b.
  unfold block_store_request, block_store_get_total_blocks. simpl bitmap.
  cbv iota.
  destruct (Z.leb_spec BLOCK_STORE_NUM_BLOCKS id).
  - eexists. split; [reflexivity|]. split; [|reflexivity].
    apply store_ok_intro; assumption.
  - destruct (bitmap_test bm id); simpl negb; cbv iota.
    + eexists. split; [reflexivity|]. split; [|reflexivity].
      apply store_ok_intro; assumption.
    + eexists. split; [reflexivity|]. split; [|reflexivity].
      apply store_ok_intro; try assumption.
      apply bitmap_set_ok; [assumption|lia].
Qed.

Lemma block_store_release_ok s id :
  store_ok s -> 0 <= id ->
  exists s', block_store_release (Some s) id = Some s' /\
             store_ok s' /\ data s' = data s.
Proof.
  intros [(bm & Hbm & Hok & Hcount) Hlen] Hid.
  destruct s as [b d]. simpl in Hbm, Hlen. subst b.
  unfold block_store_release, block_store_get_total_blocks. simpl bitmap.
  cbv iota.
  destruct (Z.ltb_spec id BLOCK_STORE_NUM_BLOCKS).
  - destruct (bitmap_test bm id).
    + eexists. split; [reflexivity|]. split; [|reflexivity].
      apply store_ok_intro; try assumption.
      apply bitmap_reset_ok; [assumption|lia].
    + eexists. split; [reflexivity|]. split; [|reflexivity].
      apply store_ok_intro; assumption.
  - eexists. split; [reflexivity|]. split; [|reflexivity].
    apply store_ok_intro; assumption.
Qed.

Lemma run_calls_ok cs : forall s,
  store_ok s -> Forall call_in_range cs ->
  exists s', run_calls (Some s) cs = Some s' /\
             store_ok s' /\ data s' = data s.
Proof.
  induction cs as [|c cs IH]; intros s Hs Hcs.
  - exists s. auto.
  - inversion Hcs as [|c' cs' Hc Hrest]; subst.
    assert (exists s1, run_call (Some s) c = Some s1 /\
                       store_ok s1 /\ data s1 = data s)
      as (s1 & Hrun & Hs1 & Hd1).
    { destruct c as [|id|id]; simpl run_call.
      - apply block_store_allocate_ok; assumption.
      - apply block_store_request_ok; [assumption|].
        simpl in Hc. unfold SizeT.in_range in Hc. lia.
      - apply block_store_release_ok; [assumption|].
        simpl in Hc. unfold SizeT.in_range in Hc. lia. }
    destruct (IH s1 Hs1 Hrest) as (s' & Hrun' & Hs' & Hd').
    exists s'. unfold run_calls in *. simpl fold_left.
    rewrite Hrun. split; [exact Hrun'|]. split; [exact Hs'|]. congruence.
Qed.

(** *** Used, free and total blocks *)

Lemma used_blocks_in_range bs :
  SizeT.in_range (block_store_get_used_blocks bs).
Proof.
  unfold block_store_get_used_blocks.
  destruct bs as [[[bm|] d]|]; simpl;
    try (unfold SizeT.in_range, SizeT.SIZE_MAX, SizeT.modulus; lia).
  apply wrap_in_range.
Qed.

Lemma used_blocks_valid bm d :
  block_store_get_used_blocks (Some (mk_block_store (Some bm) d))
  = SizeT.add (bitmap_total_set bm) BITMAP_NUM_BLOCKS.
Proof. reflexivity. Qed.

Lemma free_blocks_valid bm d :
  block_store_get_free_blocks (Some (mk_block_store (Some bm) d))
  = SizeT.sub block_store_get_total_blocks
      (block_store_get_used_blocks (Some (mk_block_store (Some bm) d))).
Proof. reflexivity. Qed.


(** As long as no bit of the reserved range is set, the used count stays
    within the total. *)
Lemma used_within_total_when_reserved_clear bm d :
  config_ok ->
  bitmap_ok bm -> bit_count bm = BLOCK_STORE_NUM_BLOCKS ->
  (forall j, in_reserved j = true -> bitmap_test bm j = false) ->
  block_store_get_used_blocks (Some (mk_block_store (Some bm) d))
  <= block_store_get_total_blocks.
Proof.
  intros Hcfg Hok Hcount Hclear.
  pose proof (config_ok_total_in_range Hcfg) as Hrange.
  destruct Hcfg as (HN & HB & Hbytes & HS & HL & HSL).
  assert (bitmap_total_set bm <= BLOCK_STORE_NUM_BLOCKS - BITMAP_NUM_BLOCKS)
    as Hbound.
  { rewrite bitmap_total_set_count by assumption. unfold count_set.
    rewrite Hcount.
    replace (Z.to_nat BLOCK_STORE_NUM_BLOCKS)
      with (Z.to_nat BITMAP_START_BLOCK
            + (Z.to_nat BITMAP_NUM_BLOCKS
               + Z.to_nat (BLOCK_STORE_NUM_BLOCKS - BITMAP_START_BLOCK
                           - BITMAP_NUM_BLOCKS)))%nat by lia.
    rewrite !count_set_from_app.
    rewrite (count_set_from_clear bm (0 + Z.of_nat (Z.to_nat BITMAP_START_BLOCK))
               (Z.to_nat BITMAP_NUM_BLOCKS)).
    - pose proof (count_set_from_bound bm 0 (Z.to_nat BITMAP_START_BLOCK)).
      pose proof (count_set_from_bound bm
                    (0 + Z.of_nat (Z.to_nat BITMAP_START_BLOCK)
                     + Z.of_nat (Z.to_nat BITMAP_NUM_BLOCKS))
                    (Z.to_nat (BLOCK_STORE_NUM_BLOCKS - BITMAP_START_BLOCK
                               - BITMAP_NUM_BLOCKS))).
      lia.
    - intros j Hj. apply Hclear, in_reserved_true. lia. }
  pose proof (bitmap_total_set_bound bm Hok) as Hpos.
  rewrite used_blocks_valid. unfold SizeT.add.
  rewrite wrap_small; [unfold block_store_get_total_blocks; lia|].
  unfold SizeT.in_range in *. lia.
Qed.

(** C3.  On a valid store [block_store_get_used_blocks] returns the
    number of set bits of the bitmap (the bits of the reserved range
    among them, whatever their state) plus [BITMAP_NUM_BLOCKS]; it
    returns [SIZE_MAX] for a null store and for a store without bitmap. *)
Theorem get_used_blocks_counts_bits_plus_reserved :
  config_ok ->
  (forall s, store_ok s ->
     exists bm, bitmap s = Some bm /\
       bitmap_total_set bm = count_set bm /\
       block_store_get_used_blocks (Some s)
       = count_set bm + BITMAP_NUM_BLOCKS) /\
  block_store_get_used_blocks None = SizeT.SIZE_MAX /\
  (forall d, block_store_get_used_blocks (Some (mk_block_store None d))
             = SizeT.SIZE_MAX).
Proof.
  intros Hcfg. split; [|split; [reflexivity|intros d; reflexivity]].
  intros s Hs.
  destruct (store_ok_bitmap s Hs) as (bm & Hbm & Hok & Hcount).
  exists bm. split; [exact Hbm|].
  pose proof (bitmap_total_set_count bm Hok) as Htotal.
  split; [exact Htotal|].
  unfold block_store_get_used_blocks. rewrite Hbm.
  unfold SizeT.add. rewrite <- Htotal.
  apply wrap_small.
  pose proof (bitmap_total_set_bound bm Hok) as Hbound.
  pose proof (config_ok_total_in_range Hcfg) as Hrange.
  destruct Hcfg as (HN & HB & Hbytes & HS & HL & HSL).
  unfold SizeT.in_range, SizeT.SIZE_MAX, SizeT.modulus.
  unfold BLOCK_STORE_NUM_BYTES in Hbytes.
  assert (BLOCK_STORE_NUM_BLOCKS < 2 ^ 63) by nia.
  assert (2 ^ 63 + 2 ^ 63 = 2 ^ 64) by reflexivity.
  lia.
Qed.

(** *** Request and release *)

(** C4.  [block_store_request] succeeds exactly when the store and its
    bitmap are present, the id is below the number of blocks and the
    bit of the id is clear.  A failed request leaves the store as it
    was.  A successful request on a well-formed store sets the bit of
    the id and no other.  Nothing excludes the reserved range: a free
    id of the reserved range is granted like any other. *)
Theorem block_store_request_spec (bs : option block_store_t) (block_id : Z) :
  SizeT.in_range block_id ->
  (fst (block_store_request bs block_id) = true <->
   exists s bm, bs = Some s /\ bitmap s = Some bm /\
                block_id < BLOCK_STORE_NUM_BLOCKS /\
                bitmap_test bm block_id = false) /\
  (fst (block_store_request bs block_id) = false ->
   snd (block_store_request bs block_id) = bs) /\
  (forall s bm, bs = Some s -> bitmap s = Some bm -> bitmap_ok bm ->
     bit_count bm = BLOCK_STORE_NUM_BLOCKS ->
     fst (block_store_request bs block_id) = true ->
     snd (block_store_request bs block_id)
     = Some (mk_block_store (Some (bitmap_set bm block_id)) (data s)) /\
     bitmap_test (bitmap_set bm block_id) block_id = true /\
     forall j, j <> block_id ->
               bitmap_test (bitmap_set bm block_id) j = bitmap_test bm j) /\
  (forall s bm, bs = Some s -> bitmap s = Some bm ->
     in_reserved block_id = true ->
     block_id < BLOCK_STORE_NUM_BLOCKS ->
     bitmap_test bm block_id = false ->
     fst (block_store_request bs block_id) = true).
Proof.
  intros Hid. unfold SizeT.in_range in Hid.
  assert (forall s bm, bs = Some s -> bitmap s = Some bm ->
            block_store_request bs block_id
            = if BLOCK_STORE_NUM_BLOCKS <=? block_id then (false, bs)
              else if negb (bitmap_test bm block_id)
                   then (true, Some (mk_block_store
                                       (Some (bitmap_set bm block_id))
                                       (data s)))
                   else (false, bs)) as Hunfold.
  { intros s bm -> Hbm. unfold block_store_request. rewrite Hbm.
    reflexivity. }
  split; [|split; [|split]].
  - split.
    + destruct bs as [s|]; [|discriminate].
      destruct (bitmap s) as [bm|] eqn:Hbm;
        [|unfold block_store_request; rewrite Hbm; discriminate].
      rewrite (Hunfold s bm eq_refl Hbm).
      destruct (Z.leb_spec BLOCK_STORE_NUM_BLOCKS block_id); [discriminate|].
      destruct (bitmap_test bm block_id) eqn:Hbit; [discriminate|].
      intros _. exists s, bm. auto.
    + intros (s & bm & -> & Hbm & Hlt & Hbit).
      rewrite (Hunfold s bm eq_refl Hbm).
      destruct (Z.leb_spec BLOCK_STORE_NUM_BLOCKS block_id); [lia|].
      rewrite Hbit. reflexivity.
  - destruct bs as [s|]; [|reflexivity].
    destruct (bitmap s) as [bm|] eqn:Hbm;
      [|unfold block_store_request; rewrite Hbm; reflexivity].
    rewrite (Hunfold s bm eq_refl Hbm).
    destruct (BLOCK_STORE_NUM_BLOCKS <=? block_id); [reflexivity|].
    destruct (bitmap_test bm block_id); [reflexivity|discriminate].
  - intros s bm Hs Hbm Hok Hcount.
    rewrite (Hunfold s bm Hs Hbm).
    destruct (Z.leb_spec BLOCK_STORE_NUM_BLOCKS block_id); [discriminate|].
    destruct (bitmap_test bm block_id) eqn:Hbit; [discriminate|].
    intros _. simpl snd.
    assert (0 <= block_id / 8 < Z.of_nat (length (bm_bytes bm))) as Hb
      by (apply bitmap_ok_byte_index; [assumption|lia]).
    split; [reflexivity|]. split.
    + rewrite bitmap_test_set by exact Hb. rewrite Z.eqb_refl. reflexivity.
    + intros j Hj. rewrite bitmap_test_set by exact Hb.
      destruct (Z.eqb_spec j block_id); [contradiction|reflexivity].
  - intros s bm Hs Hbm _ Hlt Hbit.
    rewrite (Hunfold s bm Hs Hbm).
    destruct (Z.leb_spec BLOCK_STORE_NUM_BLOCKS block_id); [lia|].
    rewrite Hbit. reflexivity.
Qed.

(** C5.  [block_store_release] clears the bit of the id, and no other,
    when the store is well formed, the id is below the number of blocks
    and its bit is set.  In every other case (bit clear, id out of range,
    store or bitmap missing) the store is left exactly as it was; the
    function has no result through which it could report an error.  In
    particular releasing an id whose bit is clear leaves
    [block_store_get_free_blocks] unchanged. *)
Theorem block_store_release_spec (bs : option block_store_t) (block_id : Z) :
  SizeT.in_range block_id ->
  (forall s bm, bs = Some s -> bitmap s = Some bm -> bitmap_ok bm ->
     bit_count bm = BLOCK_STORE_NUM_BLOCKS ->
     block_id < BLOCK_STORE_NUM_BLOCKS -> bitmap_test bm block_id = true ->
     block_store_release bs block_id
     = Some (mk_block_store (Some (bitmap_reset bm block_id)) (data s)) /\
     bitmap_test (bitmap_reset bm block_id) block_id = false /\
     forall j, j <> block_id ->
               bitmap_test (bitmap_reset bm block_id) j = bitmap_test bm j) /\
  (~ (exists s bm, bs = Some s /\ bitmap s = Some bm /\
                   block_id < BLOCK_STORE_NUM_BLOCKS /\
                   bitmap_test bm block_id = true) ->
   block_store_release bs block_id = bs) /\
  (forall s bm, bs = Some s -> bitmap s = Some bm ->
     bitmap_test bm block_id = false ->
     block_store_get_free_blocks (block_store_release bs block_id)
     = block_store_get_free_blocks bs).
Proof.
  intros Hid. unfold SizeT.in_range in Hid.
  assert (forall s bm, bs = Some s -> bitmap s = Some bm ->
            block_store_release bs block_id
            = if block_id <? BLOCK_STORE_NUM_BLOCKS then
                if bitmap_test bm block_id
                then Some (mk_block_store (Some (bitmap_reset bm block_id))
                             (data s))
                else bs
              else bs) as Hunfold.
  { intros s bm -> Hbm. unfold block_store_release. rewrite Hbm.
    reflexivity. }
  split; [|split].
  - intros s bm Hs Hbm Hok Hcount Hlt Hbit.
    rewrite (Hunfold s bm Hs Hbm).
    destruct (Z.ltb_spec block_id BLOCK_STORE_NUM_BLOCKS); [|lia].
    rewrite Hbit.
    assert (0 <= block_id / 8 < Z.of_nat (length (bm_bytes bm))) as Hb
      by (apply bitmap_ok_byte_index; [assumption|lia]).
    split; [reflexivity|]. split.
    + rewrite bitmap_test_reset by exact Hb. rewrite Z.eqb_refl. reflexivity.
    + intros j Hj. rewrite bitmap_test_reset by exact Hb.
      destruct (Z.eqb_spec j block_id); [contradiction|reflexivity].
  - intros Hnot.
    destruct bs as [s|]; [|reflexivity].
    destruct (bitmap s) as [bm|] eqn:Hbm;
      [|unfold block_store_release; rewrite Hbm; reflexivity].
    rewrite (Hunfold s bm eq_refl Hbm).
    destruct (Z.ltb_spec block_id BLOCK_STORE_NUM_BLOCKS); [|reflexivity].
    destruct (bitmap_test bm block_id) eqn:Hbit; [|reflexivity].
    exfalso. apply Hnot. exists s, bm. auto.
  - intros s bm Hs Hbm Hbit.
    rewrite (Hunfold s bm Hs Hbm), Hbit.
    destruct (block_id <? BLOCK_STORE_NUM_BLOCKS); reflexivity.
Qed.

(** *** Reading and writing blocks *)

Lemma mem_read_Some (m : list byte) off len :
  0 <= off -> 0 <= len -> off + len <= Z.of_nat (length m) ->
  mem_read m off len = Some (take (Z.to_nat len) (drop (Z.to_nat off) m)).
Proof.
  intros Hoff Hlen Hfit. unfold mem_read.
  destruct (Z.leb_spec 0 off); [|lia].
  destruct (Z.leb_spec 0 len); [|lia].
  destruct (Z.leb_spec (off + len) (Z.of_nat (length m))); [|lia].
  reflexivity.
Qed.

Lemma mem_write_Some (m : list byte) off (src : list byte) :
  0 <= off -> off + Z.of_nat (length src) <= Z.of_nat (length m) ->
  mem_write m off src
  = Some (take (Z.to_nat off) m ++ src
          ++ drop (Z.to_nat off + length src) m).
Proof.
  intros Hoff Hfit. unfold mem_write.
  destruct (Z.leb_spec 0 off); [|lia].
  destruct (Z.leb_spec (off + Z.of_nat (length src)) (Z.of_nat (length m)));
    [|lia].
  reflexivity.
Qed.

Lemma mem_write_length (m : list byte) off src m' :
  mem_write m off src = Some m' -> length m' = length m.
Proof.
  unfold mem_write.
  destruct (Z.leb_spec 0 off); [|discriminate].
  destruct (Z.leb_spec (off + Z.of_nat (length src)) (Z.of_nat (length m)));
    [|discriminate].
  intros [= <-]. rewrite !length_app, length_take, length_drop. lia.
Qed.

Lemma mem_write_read (m : list byte) off src m' :
  mem_write m off src = Some m' ->
  mem_read m' off (Z.of_nat (length src)) = Some src.
Proof.
  intros Hw. pose proof (mem_write_length _ _ _ _ Hw) as Hlen.
  revert Hw. unfold mem_write.
  destruct (Z.leb_spec 0 off); [|discriminate].
  destruct (Z.leb_spec (off + Z.of_nat (length src)) (Z.of_nat (length m)));
    [|discriminate].
  intros [= <-].
  rewrite mem_read_Some by lia. f_equal.
  rewrite drop_app_length' by (rewrite length_take; lia).
  rewrite Nat2Z.id. apply take_app_length.
Qed.

Lemma mem_write_whole (buf src : list byte) :
  length buf = length src -> mem_write buf 0 src = Some src.
Proof.
  intros Hlen. rewrite mem_write_Some by lia.
  simpl. rewrite drop_ge by lia. rewrite app_nil_r. reflexivity.
Qed.

Lemma mem_read_whole (src : list byte) :
  mem_read src 0 (Z.of_nat (length src)) = Some src.
Proof.
  rewrite mem_read_Some by lia.
  change (Z.to_nat 0) with 0%nat. rewrite drop_0, Nat2Z.id.
  rewrite take_ge by reflexivity. reflexivity.
Qed.

Lemma block_offset id :
  config_ok -> 0 <= id < BLOCK_STORE_NUM_BLOCKS ->
  SizeT.mul id BLOCK_SIZE_BYTES = id * BLOCK_SIZE_BYTES /\
  0 <= id * BLOCK_SIZE_BYTES /\
  id * BLOCK_SIZE_BYTES + BLOCK_SIZE_BYTES <= BLOCK_STORE_NUM_BYTES.
Proof.
  intros (HN & HB & Hbytes & _) Hid. unfold BLOCK_STORE_NUM_BYTES in *.
  assert (0 <= id * BLOCK_SIZE_BYTES) by nia.
  assert (id * BLOCK_SIZE_BYTES + BLOCK_SIZE_BYTES
          <= BLOCK_STORE_NUM_BLOCKS * BLOCK_SIZE_BYTES) by nia.
  split; [|split; assumption].
  apply wrap_small. unfold SizeT.in_range, SizeT.SIZE_MAX, SizeT.modulus.
  assert (2 ^ 63 < 2 ^ 64 - 1) by reflexivity. lia.
Qed.

(** C6.  On a store whose block array has its full size, whatever its
    bitmap says (or even without bitmap), writing [BLOCK_SIZE_BYTES]
    bytes to a block id below the number of blocks and reading the
    block back into a buffer of that size gives the bytes written; both
    calls return [BLOCK_SIZE_BYTES], and the write leaves the bitmap as
    it was. *)
Theorem write_then_read_roundtrip
    (bm : option bitmap_t) (d src buf : list byte) (block_id : Z) :
  config_ok ->
  Z.of_nat (length d) = BLOCK_STORE_NUM_BYTES ->
  0 <= block_id < BLOCK_STORE_NUM_BLOCKS ->
  Z.of_nat (length src) = BLOCK_SIZE_BYTES ->
  Z.of_nat (length buf) = BLOCK_SIZE_BYTES ->
  exists d',
    block_store_write (Some (mk_block_store bm d)) block_id (Some src)
    = Some (BLOCK_SIZE_BYTES, Some (mk_block_store bm d')) /\
    Z.of_nat (length d') = BLOCK_STORE_NUM_BYTES /\
    block_store_read (Some (mk_block_store bm d')) block_id (Some buf)
    = Some (BLOCK_SIZE_BYTES, Some src).
Proof.
  intros Hcfg Hd Hid Hsrc Hbuf.
  destruct (block_offset block_id Hcfg Hid) as (Hoff & Hoff0 & Hfit).
  destruct (mem_write d (block_id * BLOCK_SIZE_BYTES) src) as [d'|] eqn:Hw;
    [|rewrite mem_write_Some in Hw by lia; discriminate].
  exists d'.
  pose proof (mem_write_length _ _ _ _ Hw) as Hlen.
  pose proof (mem_write_read _ _ _ _ Hw) as Hr. rewrite Hsrc in Hr.
  pose proof (mem_read_whole src) as Hsrc_read. rewrite Hsrc in Hsrc_read.
  unfold block_store_write, block_store_read, block_store_get_total_blocks.
  destruct (Z.leb_spec BLOCK_STORE_NUM_BLOCKS block_id); [lia|].
  rewrite Hoff. simpl data. simpl bitmap.
  rewrite Hsrc_read. simpl. rewrite Hw. simpl.
  split; [reflexivity|]. split; [lia|].
  rewrite Hr. simpl.
  rewrite mem_write_whole by lia. reflexivity.
Qed.

(** C9.  For a block id of type [size_t] that is not below the number of
    blocks (the id [N] in particular), [block_store_read] and
    [block_store_write] return 0 and leave the caller's buffer and the
    store as they were, [block_store_request] fails and
    [block_store_release] does nothing: the id is rejected, not clamped.
    For every id, no [memcpy] of a read or a write leaves the block
    array, and request and release do not touch the block array. *)
Theorem per_block_calls_reject_out_of_range
    (s : block_store_t) (block_id : Z) (buffer : option (list byte)) :
  config_ok ->
  Z.of_nat (length (data s)) = BLOCK_STORE_NUM_BYTES ->
  SizeT.in_range block_id ->
  (forall b, buffer = Some b -> Z.of_nat (length b) = BLOCK_SIZE_BYTES) ->
  (BLOCK_STORE_NUM_BLOCKS <= block_id ->
   block_store_read (Some s) block_id buffer = Some (0, buffer) /\
   block_store_write (Some s) block_id buffer = Some (0, Some s) /\
   block_store_request (Some s) block_id = (false, Some s) /\
   block_store_release (Some s) block_id = Some s) /\
  is_Some (block_store_read (Some s) block_id buffer) /\
  is_Some (block_store_write (Some s) block_id buffer) /\
  data <$> snd (block_store_request (Some s) block_id) = Some (data s) /\
  data <$> block_store_release (Some s) block_id = Some (data s).
Proof.
  intros Hcfg Hd Hid Hbuf. unfold SizeT.in_range in Hid.
  split; [|split; [|split; [|split]]].
  - intros Hge.
    unfold block_store_read, block_store_write, block_store_request,
      block_store_release, block_store_get_total_blocks.
    destruct (Z.leb_spec BLOCK_STORE_NUM_BLOCKS block_id); [|lia].
    destruct (Z.ltb_spec block_id BLOCK_STORE_NUM_BLOCKS); [lia|].
    destruct buffer, (bitmap s); auto.
  - unfold block_store_read, block_store_get_total_blocks.
    destruct buffer as [b|]; [|eexists; reflexivity].
    destruct (Z.leb_spec BLOCK_STORE_NUM_BLOCKS block_id);
      [eexists; reflexivity|].
    destruct (block_offset block_id Hcfg ltac:(lia)) as (Hoff & Hoff0 & Hfit).
    destruct Hcfg as (HN & HB & _).
    rewrite Hoff, mem_read_Some by lia. simpl.
    specialize (Hbuf b eq_refl).
    rewrite mem_write_Some
      by (rewrite ?length_take, ?length_drop; lia).
    eexists. reflexivity.
  - unfold block_store_write, block_store_get_total_blocks.
    destruct buffer as [b|]; [|eexists; reflexivity].
    destruct (Z.leb_spec BLOCK_STORE_NUM_BLOCKS block_id);
      [eexists; reflexivity|].
    destruct (block_offset block_id Hcfg ltac:(lia)) as (Hoff & Hoff0 & Hfit).
    destruct Hcfg as (HN & HB & _).
    specialize (Hbuf b eq_refl).
    rewrite Hoff, mem_read_Some by lia. simpl.
    rewrite mem_write_Some
      by (rewrite ?length_take, ?length_drop; lia).
    eexists. reflexivity.
  - unfold block_store_request.
    destruct (bitmap s); [|reflexivity].
    destruct (block_store_get_total_blocks <=? block_id); [reflexivity|].
    destruct (negb _); reflexivity.
  - unfold block_store_release.
    destruct (bitmap s) as [bm|]; [|reflexivity].
    destruct (block_id <? block_store_get_total_blocks); [|reflexivity].
    destruct (bitmap_test bm block_id); reflexivity.
Qed.

(** *** Loading a store from a file *)

Lemma byte_nonzero_test (b : byte) :
  negb (Byte.eqb b x00) = true <-> b <> x00.
Proof.
  destruct (Byte.eqb b x00) eqn:E; simpl.
  - apply Byte.byte_dec_bl in E. split; [discriminate|contradiction].
  - apply Byte.eqb_false in E. tauto.
Qed.

Lemma block_is_allocated_spec d block_start todo : forall byte_index,
  block_is_allocated d block_start byte_index todo = true <->
  exists k, byte_index <= k < byte_index + Z.of_nat todo /\
            data_at d (block_start + k) <> x00.
Proof.
  induction todo as [|todo IH]; intros idx; simpl block_is_allocated.
  - split; [discriminate|]. intros (k & Hk & _). lia.
  - destruct (negb (Byte.eqb (data_at d (block_start + idx)) x00)) eqn:E.
    + split; [|reflexivity]. intros _. exists idx.
      split; [lia|]. apply byte_nonzero_test, E.
    + rewrite IH. split.
      * intros (k & Hk & Hnz). exists k. split; [lia|exact Hnz].
      * intros (k & Hk & Hnz). exists k. split; [|exact Hnz].
        destruct (Z.eq_dec k idx) as [->|Hne]; [|lia].
        apply byte_nonzero_test in Hnz. congruence.
Qed.

Lemma block_is_allocated_block d i :
  config_ok -> 0 <= i < BLOCK_STORE_NUM_BLOCKS ->
  block_is_allocated d (SizeT.mul i BLOCK_SIZE_BYTES) 0
    (Z.to_nat BLOCK_SIZE_BYTES) = true <->
  has_nonzero_byte d i.
Proof.
  intros Hcfg Hi.
  destruct (block_offset i Hcfg Hi) as (-> & _).
  destruct Hcfg as (_ & HB & _).
  rewrite block_is_allocated_spec. unfold has_nonzero_byte.
  split; intros (k & Hk & Hnz); exists k; (split; [lia|exact Hnz]).
Qed.

Lemma mark_blocks_spec d todo : forall bm i,
  config_ok ->
  bitmap_ok bm -> bit_count bm = BLOCK_STORE_NUM_BLOCKS ->
  0 <= i -> i + Z.of_nat todo <= BLOCK_STORE_NUM_BLOCKS ->
  bitmap_ok (mark_blocks d bm i todo) /\
  bit_count (mark_blocks d bm i todo) = BLOCK_STORE_NUM_BLOCKS /\
  forall j,
    bitmap_test (mark_blocks d bm i todo) j = true <->
    bitmap_test bm j = true \/
    (i <= j < i + Z.of_nat todo /\ has_nonzero_byte d j).
Proof.
  induction todo as [|todo IH]; intros bm i Hcfg Hok Hcount Hi Hfit.
  - simpl. split; [assumption|]. split; [assumption|].
    intros j. split; [auto|]. intros [H|[H _]]; [exact H|lia].
  - simpl mark_blocks.
    pose proof (block_is_allocated_block d i Hcfg ltac:(lia)) as Hblock.
    destruct (block_is_allocated d (SizeT.mul i BLOCK_SIZE_BYTES) 0
                (Z.to_nat BLOCK_SIZE_BYTES)) eqn:Halloc.
    + assert (has_nonzero_byte d i) as Hnz by (apply Hblock; reflexivity).
      destruct (IH (bitmap_set bm i) (i + 1) Hcfg) as (Hok' & Hcount' & Hbits);
        try assumption; try lia.
      { apply bitmap_set_ok; [assumption|lia]. }
      split; [assumption|]. split; [assumption|].
      intros j. rewrite Hbits.
      rewrite bitmap_test_set
        by (apply bitmap_ok_byte_index; [assumption|lia]).
      destruct (Z.eqb_spec j i) as [->|Hne].
      * split; [|auto]. intros _. right. split; [lia|exact Hnz].
      * split; (intros [H|[Hj H]]; [left; exact H|right; split; [lia|exact H]]).
    + assert (~ has_nonzero_byte d i) as Hz.
      { intros H. apply Hblock in H. congruence. }
      destruct (IH bm (i + 1) Hcfg) as (Hok' & Hcount' & Hbits);
        try assumption; try lia.
      split; [assumption|]. split; [assumption|].
      intros j. rewrite Hbits.
      split; (intros [H|[Hj H]]; [left; exact H|]).
      * right. split; [lia|exact H].
      * destruct (Z.eq_dec j i) as [->|Hne]; [contradiction|].
        right. split; [lia|exact H].
Qed.

Lemma deserialize_inversion e fs filename s :
  fst (block_store_deserialize e fs filename) = Some s ->
  exists path content,
    filename = Some path /\ fs !! path = Some content /\
    open_ok e = true /\ calloc_ok e = true /\ bitmap_alloc_ok e = true /\
    BLOCK_STORE_NUM_BYTES <= Z.of_nat (length content).
Proof.
  unfold block_store_deserialize.
  destruct filename as [path|]; [|discriminate].
  destruct (open_ok e) eqn:Hopen; [|discriminate].
  destruct (fs !! path) as [content|] eqn:Hfile; [|discriminate].
  destruct (calloc_ok e) eqn:Hcalloc; [|discriminate]. simpl negb. cbv iota.
  destruct (bitmap_alloc_ok e) eqn:Hbm; [|discriminate].
  simpl bitmap_create. cbv iota.
  destruct (Z.eqb_spec (Z.of_nat (length (sys_read content
                                            BLOCK_STORE_NUM_BYTES)))
              BLOCK_STORE_NUM_BYTES) as [Hread|Hread]; [|discriminate].
  intros _. exists path, content.
  repeat split; try reflexivity; try assumption.
  unfold sys_read in Hread. rewrite length_take in Hread. lia.
Qed.

Lemma deserialize_success e fs path content :
  config_ok ->
  fs !! path = Some content ->
  open_ok e = true -> calloc_ok e = true -> bitmap_alloc_ok e = true ->
  BLOCK_STORE_NUM_BYTES <= Z.of_nat (length content) ->
  exists bm,
    block_store_deserialize e fs (Some path)
    = (Some (mk_block_store (Some bm)
               (take (Z.to_nat BLOCK_STORE_NUM_BYTES) content)),
       [Acquire FileDescriptor; Acquire StoreMemory;
        Acquire BitmapMemory; Release FileDescriptor]) /\
    bitmap_ok bm /\ bit_count bm = BLOCK_STORE_NUM_BLOCKS /\
    forall j, bitmap_test bm j = true <->
              0 <= j < BLOCK_STORE_NUM_BLOCKS /\
              has_nonzero_byte (take (Z.to_nat BLOCK_STORE_NUM_BYTES) content)
                j.
Proof.
  intros Hcfg Hfile Hopen Hcalloc Hbm Hlen.
  assert (0 <= BLOCK_STORE_NUM_BYTES) as Hbytes.
  { destruct Hcfg as (HN & HB & _). unfold BLOCK_STORE_NUM_BYTES. nia. }
  assert (0 <= BLOCK_STORE_NUM_BLOCKS) as HN0
    by (destruct Hcfg as (HN & _); lia).
  destruct (bitmap_create true BLOCK_STORE_NUM_BLOCKS) as [bm0|] eqn:Hcreate;
    [|discriminate].
  destruct (bitmap_create_ok _ _ _ HN0 Hcreate) as [Hok0 Hcount0].
  set (d := take (Z.to_nat BLOCK_STORE_NUM_BYTES) content).
  destruct (mark_blocks_spec d (Z.to_nat BLOCK_STORE_NUM_BLOCKS) bm0 0
              Hcfg Hok0 Hcount0 ltac:(lia) ltac:(lia))
    as (Hok & Hcount & Hbits).
  exists (mark_blocks d bm0 0 (Z.to_nat BLOCK_STORE_NUM_BLOCKS)).
  split; [|split; [exact Hok|split; [exact Hcount|]]].
  - unfold block_store_deserialize, block_store_get_total_blocks.
    rewrite Hopen, Hfile, Hcalloc, Hbm. simpl negb. cbv iota.
    rewrite Hcreate. unfold sys_read. fold d.
    assert (Z.of_nat (length d) = BLOCK_STORE_NUM_BYTES) as Hd
      by (unfold d; rewrite length_take; lia).
    destruct (Z.eqb_spec (Z.of_nat (length d)) BLOCK_STORE_NUM_BYTES);
      [|contradiction].
    simpl negb. cbv iota.
    replace (Z.to_nat BLOCK_STORE_NUM_BYTES - length d)%nat with 0%nat by lia.
    simpl replicate. rewrite app_nil_r. reflexivity.
  - intros j. rewrite Hbits.
    rewrite (bitmap_test_create _ _ _ j Hcreate). split.
    + intros [H|[Hj Hnz]]; [discriminate|]. split; [lia|exact Hnz].
    + intros [Hj Hnz]. right. split; [lia|exact Hnz].
Qed.

(** *** Saving a store to a file *)

Lemma serialize_success e fs s path :
  config_ok -> env_ok e ->
  Z.of_nat (length (data s)) = BLOCK_STORE_NUM_BYTES ->
  block_store_serialize e fs (Some s) (Some path)
  = (BLOCK_STORE_NUM_BYTES, <[path := data s]> fs).
Proof.
  intros Hcfg (_ & _ & Hopen & Hlimit) Hlen.
  assert (0 <= BLOCK_STORE_NUM_BYTES) as Hbytes.
  { destruct Hcfg as (HN & HB & _). unfold BLOCK_STORE_NUM_BYTES. nia. }
  unfold block_store_serialize, sys_write. rewrite Hopen.
  destruct (Z.ltb_spec (write_limit e) 0); [lia|].
  rewrite Z.min_r by lia. rewrite Z.eqb_refl. simpl negb. cbv iota.
  rewrite take_ge by lia. reflexivity.
Qed.

(** C7.  [block_store_deserialize] returns [NULL] when the file holds
    fewer than [BLOCK_STORE_NUM_BYTES] bytes, and whenever it returns
    [NULL] every file descriptor and every piece of memory it acquired
    has been released.  When it succeeds the store is well formed, the
    file descriptor is closed, and the bit of block [i] is set exactly
    when the block holds a byte that is not zero.  So a store in which
    block [i] is marked allocated but holds only zero bytes comes back,
    after a save and a load, with block [i] free. *)
Theorem deserialize_rebuilds_bitmap_from_contents
    (e : sys_env) (fs : gmap string (list byte)) (filename : option string) :
  config_ok ->
  (forall path content,
     filename = Some path -> fs !! path = Some content ->
     Z.of_nat (length content) < BLOCK_STORE_NUM_BYTES ->
     fst (block_store_deserialize e fs filename) = None) /\
  (fst (block_store_deserialize e fs filename) = None ->
   forall r, held r (snd (block_store_deserialize e fs filename)) = 0) /\
  (forall s, fst (block_store_deserialize e fs filename) = Some s ->
     store_ok s /\
     held FileDescriptor (snd (block_store_deserialize e fs filename)) = 0 /\
     exists bm, bitmap s = Some bm /\
       forall i, 0 <= i < BLOCK_STORE_NUM_BLOCKS ->
         (bitmap_test bm i = true <-> has_nonzero_byte (data s) i)) /\
  (forall s bm i path,
     env_ok e -> store_ok s -> bitmap s = Some bm ->
     0 <= i < BLOCK_STORE_NUM_BLOCKS ->
     bitmap_test bm i = true ->
     ~ has_nonzero_byte (data s) i ->
     exists s' bm',
       fst (block_store_deserialize e
              (snd (block_store_serialize e fs (Some s) (Some path)))
              (Some path)) = Some s' /\
       data s' = data s /\
       bitmap s' = Some bm' /\ bitmap_test bm' i = false).
Proof.
  intros Hcfg. split; [|split; [|split]].
  - intros path content -> Hfile Hshort.
    destruct (fst (block_store_deserialize e fs (Some path))) as [s|] eqn:E;
      [|reflexivity].
    apply deserialize_inversion in E.
    destruct E as (path' & content' & [= <-] & Hfile' & _ & _ & _ & Hlen).
    rewrite Hfile in Hfile'. injection Hfile' as <-. lia.
  - unfold block_store_deserialize.
    destruct filename as [path|]; [|intros _ []; reflexivity].
    destruct (if open_ok e then fs !! path else None) as [content|];
      [|intros _ []; reflexivity].
    destruct (calloc_ok e); simpl negb; cbv iota;
      [|intros _ []; reflexivity].
    destruct (bitmap_create (bitmap_alloc_ok e) block_store_get_total_blocks);
      [|intros _ []; reflexivity].
    destruct (negb _); [intros _ []; reflexivity|discriminate].
  - intros s Hs.
    destruct (deserialize_inversion _ _ _ _ Hs)
      as (path & content & -> & Hfile & Hopen & Hcalloc & Hbm & Hlen).
    destruct (deserialize_success e fs path content Hcfg Hfile Hopen Hcalloc
                Hbm Hlen) as (bm & Heq & Hok & Hcount & Hbits).
    rewrite Heq in Hs |- *. simpl in Hs. injection Hs as <-.
    split; [|split; [reflexivity|]].
    + apply store_ok_intro; try assumption.
      rewrite length_take.
      assert (0 <= BLOCK_STORE_NUM_BYTES)
        by (destruct Hcfg as (HN & HB & _); unfold BLOCK_STORE_NUM_BYTES; nia).
      lia.
    + exists bm. split; [reflexivity|]. intros i Hi. simpl data.
      rewrite Hbits. tauto.
  - intros s bm i path Henv Hs Hbm Hi Hset Hzero.
    destruct Hs as [_ Hlen].
    rewrite (serialize_success e fs s path Hcfg Henv Hlen). simpl snd.
    destruct Henv as (Hcalloc & Hbmok & Hopen & _).
    destruct (deserialize_success e (<[path := data s]> fs) path (data s)
                Hcfg (lookup_insert_eq _ _ _) Hopen Hcalloc Hbmok
                ltac:(lia)) as (bm' & Heq & _ & _ & Hbits).
    assert (take (Z.to_nat BLOCK_STORE_NUM_BYTES) (data s) = data s) as Htake
      by (apply take_ge; lia).
    rewrite Htake in Heq, Hbits.
    eexists. exists bm'. rewrite Heq. simpl.
    split; [reflexivity|]. split; [reflexivity|]. split; [reflexivity|].
    destruct (bitmap_test bm' i) eqn:Hbit; [|reflexivity].
    apply Hbits in Hbit. tauto.
Qed.

(** C8.  When nothing fails, [block_store_serialize] returns
    [BLOCK_STORE_NUM_BYTES] and leaves at the path a file that is the
    block array, byte for byte and nothing else; loading that file gives
    a well-formed store with the same block array, so that reading any
    block of it returns the bytes the block had before the save.
    [block_store_serialize] returns 0 when [open] fails, when [write]
    fails or writes fewer bytes, and for a null store or file name. *)
Theorem serialize_deserialize_roundtrip
    (e : sys_env) (fs : gmap string (list byte)) (s : block_store_t)
    (path : string) :
  config_ok ->
  Z.of_nat (length (data s)) = BLOCK_STORE_NUM_BYTES ->
  (env_ok e ->
   block_store_serialize e fs (Some s) (Some path)
   = (BLOCK_STORE_NUM_BYTES, <[path := data s]> fs) /\
   snd (block_store_serialize e fs (Some s) (Some path)) !! path
   = Some (data s) /\
   exists s',
     fst (block_store_deserialize e
            (snd (block_store_serialize e fs (Some s) (Some path)))
            (Some path)) = Some s' /\
     store_ok s' /\ data s' = data s /\
     forall block_id buf,
       0 <= block_id < BLOCK_STORE_NUM_BLOCKS ->
       Z.of_nat (length buf) = BLOCK_SIZE_BYTES ->
       block_store_read (Some s') block_id (Some buf)
       = Some (BLOCK_SIZE_BYTES,
               Some (take (Z.to_nat BLOCK_SIZE_BYTES)
                       (drop (Z.to_nat (block_id * BLOCK_SIZE_BYTES))
                          (data s))))) /\
  (open_ok e = false \/ write_limit e < BLOCK_STORE_NUM_BYTES ->
   fst (block_store_serialize e fs (Some s) (Some path)) = 0) /\
  fst (block_store_serialize e fs None (Some path)) = 0 /\
  fst (block_store_serialize e fs (Some s) None) = 0.
Proof.
  intros Hcfg Hlen. split; [|split; [|split; reflexivity]].
  - intros Henv.
    rewrite (serialize_success e fs s path Hcfg Henv Hlen). simpl snd.
    split; [reflexivity|]. split; [apply lookup_insert_eq|].
    destruct Henv as (Hcalloc & Hbmok & Hopen & _).
    destruct (deserialize_success e (<[path := data s]> fs) path (data s)
                Hcfg (lookup_insert_eq _ _ _) Hopen Hcalloc Hbmok
                ltac:(lia)) as (bm' & Heq & Hok & Hcount & _).
    assert (take (Z.to_nat BLOCK_STORE_NUM_BYTES) (data s) = data s) as Htake
      by (apply take_ge; lia).
    rewrite Htake in Heq.
    eexists. rewrite Heq. simpl fst.
    split; [reflexivity|]. split; [apply store_ok_intro; assumption|].
    split; [reflexivity|].
    intros block_id buf Hid Hbuf.
    destruct (block_offset block_id Hcfg Hid) as (Hoff & Hoff0 & Hfit).
    unfold block_store_read, block_store_get_total_blocks.
    destruct (Z.leb_spec BLOCK_STORE_NUM_BLOCKS block_id); [lia|].
    destruct Hcfg as (HN & HB & _).
    simpl data. rewrite Hoff, mem_read_Some by lia. simpl.
    rewrite mem_write_whole; [reflexivity|].
    rewrite length_take, length_drop. lia.
  - intros Hfail. unfold block_store_serialize, sys_write.
    destruct (open_ok e); [|reflexivity].
    destruct Hfail as [Hopen|Hshort]; [discriminate|].
    destruct (Z.ltb_spec (write_limit e) 0).
    + destruct (Z.eqb_spec (-1) BLOCK_STORE_NUM_BYTES); [|reflexivity].
      destruct Hcfg as (HN & HB & _). unfold BLOCK_STORE_NUM_BYTES in *. nia.
    + rewrite Z.min_l by lia.
      destruct (Z.eqb_spec (write_limit e) BLOCK_STORE_NUM_BYTES); [lia|].
      reflexivity.
Qed.

(** *** When the reserved blocks are marked as well *)

Lemma count_set_from_all bm i todo :
  (forall j, i <= j < i + Z.of_nat todo -> bitmap_test bm j = true) ->
  count_set_from bm i todo = Z.of_nat todo.
Proof.
  revert i. induction todo as [|todo IH]; intros i Hall.
  - reflexivity.
  - simpl count_set_from. rewrite Hall by lia.
    rewrite IH by (intros j Hj; apply Hall; lia). lia.
Qed.

Lemma all_marked_counts bm d :
  config_ok -> 0 < BITMAP_NUM_BLOCKS ->
  bitmap_ok bm -> bit_count bm = BLOCK_STORE_NUM_BLOCKS ->
  (forall j, 0 <= j < BLOCK_STORE_NUM_BLOCKS -> bitmap_test bm j = true) ->
  block_store_get_used_blocks (Some (mk_block_store (Some bm) d))
  = BLOCK_STORE_NUM_BLOCKS + BITMAP_NUM_BLOCKS /\
  block_store_get_total_blocks
  < block_store_get_used_blocks (Some (mk_block_store (Some bm) d)) /\
  block_store_get_free_blocks (Some (mk_block_store (Some bm) d))
  = SizeT.modulus - BITMAP_NUM_BLOCKS.
Proof.
  intros Hcfg HLpos Hok Hcount Hall.
  pose proof (config_ok_total_in_range Hcfg) as Hrange.
  assert (bitmap_total_set bm = BLOCK_STORE_NUM_BLOCKS) as Htotal.
  { rewrite bitmap_total_set_count by assumption. unfold count_set.
    rewrite Hcount, count_set_from_all.
    - destruct Hcfg as (HN & _). lia.
    - intros j Hj. apply Hall. destruct Hcfg as (HN & _). lia. }
  assert (block_store_get_used_blocks (Some (mk_block_store (Some bm) d))
          = BLOCK_STORE_NUM_BLOCKS + BITMAP_NUM_BLOCKS) as Hused.
  { rewrite used_blocks_valid, Htotal. apply wrap_small.
    destruct Hcfg as (HN & HB & Hbytes & HS & HL & HSL).
    unfold SizeT.in_range, SizeT.SIZE_MAX, SizeT.modulus.
    unfold BLOCK_STORE_NUM_BYTES in Hbytes.
    assert (BLOCK_STORE_NUM_BLOCKS < 2 ^ 63) by nia.
    assert (2 ^ 63 + 2 ^ 63 = 2 ^ 64) by reflexivity. lia. }
  split; [exact Hused|]. split.
  - rewrite Hused. unfold block_store_get_total_blocks. lia.
  - rewrite free_blocks_valid, Hused. unfold block_store_get_total_blocks.
    rewrite sub_underflow; [lia|exact Hrange| |lia].
    rewrite <- Hused. apply used_blocks_in_range.
Qed.

Lemma request_range_free todo : forall i bm d,
  bitmap_ok bm -> bit_count bm = BLOCK_STORE_NUM_BLOCKS ->
  0 <= i -> i + Z.of_nat todo <= BLOCK_STORE_NUM_BLOCKS ->
  (forall j, i <= j < i + Z.of_nat todo -> bitmap_test bm j = false) ->
  exists bm',
    request_range (Some (mk_block_store (Some bm) d)) i todo
    = (replicate todo true, Some (mk_block_store (Some bm') d)) /\
    bitmap_ok bm' /\ bit_count bm' = BLOCK_STORE_NUM_BLOCKS /\
    forall j, bitmap_test bm' j = true <->
              bitmap_test bm j = true \/ i <= j < i + Z.of_nat todo.
Proof.
  induction todo as [|todo IH]; intros i bm d Hok Hcount Hi Hfit Hfree.
  - exists bm. split; [reflexivity|]. split; [assumption|].
    split; [assumption|]. intros j. split; [auto|].
    intros [H|H]; [exact H|lia].
  - assert (0 <= i / 8 < Z.of_nat (length (bm_bytes bm))) as Hb
      by (apply bitmap_ok_byte_index; [assumption|lia]).
    destruct (IH (i + 1) (bitmap_set bm i) d) as (bm' & Heq & Hok' & Hcount' & Hbits);
      try assumption; try lia.
    { apply bitmap_set_ok; [assumption|lia]. }
    { intros j Hj. rewrite bitmap_test_set by exact Hb.
      destruct (Z.eqb_spec j i); [lia|]. apply Hfree. lia. }
    exists bm'. split; [|split; [exact Hok'|split; [exact Hcount'|]]].
    + simpl request_range.
      unfold block_store_request, block_store_get_total_blocks.
      simpl bitmap. cbv iota.
      destruct (Z.leb_spec BLOCK_STORE_NUM_BLOCKS i); [lia|].
      rewrite (Hfree i) by lia. simpl negb. cbv iota. simpl data.
      rewrite Heq. reflexivity.
    + intros j. rewrite Hbits, bitmap_test_set by exact Hb.
      destruct (Z.eqb_spec j i) as [->|Hne].
      * split; [intros _; right; lia|auto].
      * split; (intros [H|H]; [left; exact H|right; lia]).
Qed.

Lemma has_nonzero_byte_ones n i :
  config_ok -> 0 <= i < BLOCK_STORE_NUM_BLOCKS ->
  Z.of_nat n = BLOCK_STORE_NUM_BYTES ->
  has_nonzero_byte (replicate n x01) i.
Proof.
  intros Hcfg Hi Hn.
  destruct (block_offset i Hcfg Hi) as (_ & Hoff0 & Hfit).
  destruct Hcfg as (_ & HB & _).
  exists 0. split; [lia|]. unfold data_at.
  destruct (Z.ltb_spec (i * BLOCK_SIZE_BYTES + 0) 0); [lia|].
  rewrite lookup_replicate_2 by lia. discriminate.
Qed.

(** C10.  There are reachable states of a valid store in which the used
    count exceeds the total.  From a fresh store, allocate every block
    outside the reserved range and then request every id of the reserved
    range (each request succeeds); or load a file in which every block,
    those of the reserved range included, holds a non-zero byte.  In
    both states [block_store_get_used_blocks] returns
    [N + BITMAP_NUM_BLOCKS], more than the total [N], and
    [block_store_get_free_blocks], the [size_t] difference, wraps around
    to [2^64 - BITMAP_NUM_BLOCKS]. *)
Theorem used_blocks_can_exceed_total (e : sys_env) (s : block_store_t) :
  config_ok -> 0 < BITMAP_NUM_BLOCKS ->
  block_store_create e = Some s ->
  (let full := snd (allocate_many (length unreserved_ids) (Some s)) in
   let requested :=
     request_range full BITMAP_START_BLOCK (Z.to_nat BITMAP_NUM_BLOCKS) in
   fst requested = replicate (Z.to_nat BITMAP_NUM_BLOCKS) true /\
   block_store_get_used_blocks (snd requested)
   = BLOCK_STORE_NUM_BLOCKS + BITMAP_NUM_BLOCKS /\
   block_store_get_total_blocks < block_store_get_used_blocks (snd requested) /\
   block_store_get_free_blocks (snd requested)
   = SizeT.modulus - BITMAP_NUM_BLOCKS) /\
  (forall e' fs path,
     env_ok e' ->
     exists loaded,
       fst (block_store_deserialize e'
              (<[path := replicate (Z.to_nat BLOCK_STORE_NUM_BYTES) x01]> fs)
              (Some path)) = Some loaded /\
       store_ok loaded /\
       block_store_get_used_blocks (Some loaded)
       = BLOCK_STORE_NUM_BLOCKS + BITMAP_NUM_BLOCKS /\
       block_store_get_total_blocks
       < block_store_get_used_blocks (Some loaded) /\
       block_store_get_free_blocks (Some loaded)
       = SizeT.modulus - BITMAP_NUM_BLOCKS).
Proof.
  intros Hcfg HLpos Hcreate.
  assert (0 <= BLOCK_STORE_NUM_BYTES) as Hbytes.
  { destruct Hcfg as (HN & HB & _). unfold BLOCK_STORE_NUM_BYTES. nia. }
  split.
  - destruct (block_store_create_ok e s Hcfg Hcreate)
      as (Hstore & Hclear & _).
    destruct (store_ok_bitmap s Hstore) as (bm & Hbm & Hok & Hcount).
    destruct s as [b d]. simpl in Hbm. subst b.
    assert (0 < BLOCK_STORE_NUM_BLOCKS) as HN by (destruct Hcfg; assumption).
    destruct (allocate_many_from_frontier (Z.to_nat BLOCK_STORE_NUM_BLOCKS)
                0 bm d Hok Hcount)
      as (bm1 & Hmany & Hok1 & Hcount1 & Hup1); try lia.
    { apply allocated_up_to_fresh. intros i. eapply Hclear. reflexivity. }
    fold unreserved_ids in Hmany. cbv zeta. rewrite Hmany. simpl snd.
    assert (0 <= BITMAP_START_BLOCK /\
            BITMAP_START_BLOCK + BITMAP_NUM_BLOCKS <= BLOCK_STORE_NUM_BLOCKS)
      as [HS HSL] by (destruct Hcfg as (_ & _ & _ & ? & ? & ?); lia).
    destruct (request_range_free (Z.to_nat BITMAP_NUM_BLOCKS)
                BITMAP_START_BLOCK bm1 d Hok1 Hcount1)
      as (bm2 & Hreq & Hok2 & Hcount2 & Hbits2); try lia.
    { intros j Hj. destruct (bitmap_test bm1 j) eqn:Hbit; [|reflexivity].
      apply Hup1 in Hbit. destruct Hbit as [_ Hnr].
      apply in_reserved_false in Hnr. lia. }
    rewrite Hreq. simpl fst. simpl snd. split; [reflexivity|].
    apply all_marked_counts; try assumption.
    intros j Hj. apply Hbits2.
    destruct (in_reserved j) eqn:Hres.
    + right. apply in_reserved_true in Hres. lia.
    + left. apply Hup1. split; [lia|exact Hres].
  - intros e' fs path (Hcalloc & Hbmok & Hopen & _).
    destruct (deserialize_success e'
                (<[path := replicate (Z.to_nat BLOCK_STORE_NUM_BYTES) x01]> fs)
                path (replicate (Z.to_nat BLOCK_STORE_NUM_BYTES) x01)
                Hcfg (lookup_insert_eq _ _ _) Hopen Hcalloc Hbmok)
      as (bm & Heq & Hok & Hcount & Hbits).
    { rewrite length_replicate. lia. }
    rewrite Heq. simpl fst. eexists. split; [reflexivity|].
    rewrite take_ge in Hbits |- * by (rewrite length_replicate; lia).
    split.
    { apply store_ok_intro; try assumption. rewrite length_replicate. lia. }
    apply all_marked_counts; try assumption.
    intros j Hj. apply Hbits. split; [exact Hj|].
    apply has_nonzero_byte_ones; [assumption|assumption|lia].
Qed.

End BlockStoreFacts.

(** * More of the block store *)

Section BlockStoreMore.

Context {cfg : Config}.

(** ** Helpers *)

Lemma set_then_clear_bit b k :
  0 <= k -> Z.testbit b k = false ->
  Z.land (Z.lor b (Z.shiftl 1 k)) (Z.lnot (Z.shiftl 1 k)) = b.
Proof.
  intros Hk Hclear. apply Z.bits_inj'. intros n Hn.
  rewrite testbit_clear_bit, testbit_set_bit by assumption.
  destruct (Z.eqb_spec n k) as [->|Hne].
  - rewrite Hclear. reflexivity.
  - rewrite orb_false_r, andb_true_r. reflexivity.
Qed.

Lemma bitmap_reset_set bm i :
  0 <= i / 8 < Z.of_nat (length (bm_bytes bm)) ->
  bitmap_test bm i = false ->
  bitmap_reset (bitmap_set bm i) i = bm.
Proof.
  intros Hb Hclear. destruct bm as [n l]. unfold bitmap_reset, bitmap_set.
  simpl bit_count. simpl bm_bytes in *. f_equal.
  rewrite byte_at_insert_eq by exact Hb.
  rewrite list_insert_insert_eq.
  apply list_insert_id.
  unfold bitmap_test in Hclear. simpl bm_bytes in Hclear.
  rewrite set_then_clear_bit;
    [|apply Z.mod_pos_bound; lia|exact Hclear].
  rewrite byte_at_default by lia.
  destruct (l !! Z.to_nat (i / 8)) as [x|] eqn:E; [reflexivity|].
  apply lookup_ge_None in E. lia.
Qed.

Lemma used_blocks_exact bm d :
  config_ok -> bitmap_ok bm -> bit_count bm = BLOCK_STORE_NUM_BLOCKS ->
  block_store_get_used_blocks (Some (mk_block_store (Some bm) d))
  = bitmap_total_set bm + BITMAP_NUM_BLOCKS.
Proof.
  intros Hcfg Hok Hcount. rewrite used_blocks_valid. apply wrap_small.
  pose proof (bitmap_total_set_bound bm Hok) as Hbound.
  destruct Hcfg as (HN & HB & Hbytes & HS & HL & HSL).
  unfold SizeT.in_range, SizeT.SIZE_MAX, SizeT.modulus.
  unfold BLOCK_STORE_NUM_BYTES in Hbytes.
  assert (BLOCK_STORE_NUM_BLOCKS < 2 ^ 63) by nia.
  assert (2 ^ 63 + 2 ^ 63 = 2 ^ 64) by reflexivity.
  lia.
Qed.

Lemma store_ok_eta s bm :
  bitmap s = Some bm -> s = mk_block_store (Some bm) (data s).
Proof. destruct s as [b d]. simpl. intros ->. reflexivity. Qed.

Lemma held_app r tr1 tr2 : held r (tr1 ++ tr2) = held r tr1 + held r tr2.
Proof.
  induction tr1 as [|[r'|r'] tr1 IH]; simpl; [reflexivity| |]; rewrite IH; lia.
Qed.

(** ** Allocation in any state *)

(** X1.  On a well-formed store [block_store_allocate] either returns
    the lowest index of [0, N) that is neither reserved nor in use,
    having set its bit and no other, or it returns [SIZE_MAX] and leaves
    the store as it was, which happens only when every block outside the
    reserved range is in use.  The block array is never changed, and no
    index handed out equals [SIZE_MAX]. *)
Theorem allocate_returns_lowest_free (s : block_store_t) :
  config_ok -> store_ok s ->
  exists bm, bitmap s = Some bm /\
    ((block_store_allocate (Some s) = (SizeT.SIZE_MAX, Some s) /\
      all_unreserved_used bm) \/
     (exists r,
        block_store_allocate (Some s)
        = (r, Some (mk_block_store (Some (bitmap_set bm r)) (data s))) /\
        0 <= r < BLOCK_STORE_NUM_BLOCKS /\ r <> SizeT.SIZE_MAX /\
        in_reserved r = false /\ bitmap_test bm r = false /\
        (forall j, 0 <= j < r -> in_reserved j = false ->
                   bitmap_test bm j = true) /\
        bitmap_test (bitmap_set bm r) r = true /\
        (forall j, j <> r ->
                   bitmap_test (bitmap_set bm r) j = bitmap_test bm j))).
Proof.
  intros Hcfg Hs.
  destruct (store_ok_bitmap s Hs) as (bm & Hbm & Hok & Hcount).
  pose proof (config_ok_total_in_range Hcfg) as Hrange.
  assert (0 < BLOCK_STORE_NUM_BLOCKS) as HN by (destruct Hcfg; assumption).
  exists bm. split; [exact Hbm|].
  destruct s as [b d]. simpl in Hbm. subst b. simpl data.
  rewrite block_store_allocate_unfold.
  destruct (allocate_scan_spec bm 0 (Z.to_nat block_store_get_total_blocks))
    as [[Heq Hall]|(r & Heq & Hr & Hnr & Hclr & Hall)];
    rewrite Heq; cbn [fst snd];
    unfold block_store_get_total_blocks in *.
  - left. split; [reflexivity|].
    intros j Hj Hjn. destruct (Hall j ltac:(lia)); congruence.
  - right. exists r.
    assert (0 <= r / 8 < Z.of_nat (length (bm_bytes bm))) as Hb
      by (apply bitmap_ok_byte_index; [assumption|lia]).
    split; [reflexivity|]. split; [lia|].
    split; [unfold SizeT.in_range in Hrange; lia|].
    split; [exact Hnr|]. split; [exact Hclr|]. split; [|split].
    + intros j Hj Hjn. destruct (Hall j ltac:(lia)); congruence.
    + rewrite bitmap_test_set by exact Hb. rewrite Z.eqb_refl. reflexivity.
    + intros j Hj. rewrite bitmap_test_set by exact Hb.
      destruct (Z.eqb_spec j r); [contradiction|reflexivity].
Qed.

Lemma allocate_scan_fails_iff_full bm :
  config_ok ->
  fst (allocate_scan bm 0 (Z.to_nat block_store_get_total_blocks))
  = SizeT.SIZE_MAX <->
  all_unreserved_used bm.
Proof.
  intros Hcfg.
  pose proof (config_ok_total_in_range Hcfg) as Hrange.
  assert (0 < BLOCK_STORE_NUM_BLOCKS) as HN by (destruct Hcfg; assumption).
  destruct (allocate_scan_spec bm 0 (Z.to_nat block_store_get_total_blocks))
    as [[Heq Hall]|(r & Heq & Hr & Hnr & Hclr & Hall)];
    rewrite Heq; cbn [fst]; unfold block_store_get_total_blocks in *.
  - split; [|reflexivity]. intros _ j Hj Hjn.
    destruct (Hall j ltac:(lia)); congruence.
  - split.
    + intros ->. unfold SizeT.in_range in Hrange. lia.
    + intros Hfull. specialize (Hfull r ltac:(lia) Hnr). congruence.
Qed.

(** X2.  On a store with a bitmap [block_store_allocate] returns
    [SIZE_MAX] exactly when every block outside the reserved range is in
    use. *)
Theorem allocate_fails_iff_full (s : block_store_t) (bm : bitmap_t) :
  config_ok -> bitmap s = Some bm ->
  fst (block_store_allocate (Some s)) = SizeT.SIZE_MAX <->
  all_unreserved_used bm.
Proof.
  intros Hcfg Hbm.
  rewrite (store_ok_eta s bm Hbm), block_store_allocate_unfold. cbn [fst].
  apply allocate_scan_fails_iff_full, Hcfg.
Qed.

(** ** How request, release and allocate compose *)

Lemma block_store_request_unfold bm d id :
  block_store_request (Some (mk_block_store (Some bm) d)) id
  = if BLOCK_STORE_NUM_BLOCKS <=? id
    then (false, Some (mk_block_store (Some bm) d))
    else if negb (bitmap_test bm id)
         then (true, Some (mk_block_store (Some (bitmap_set bm id)) d))
         else (false, Some (mk_block_store (Some bm) d)).
Proof. reflexivity. Qed.

Lemma block_store_release_unfold bm d id :
  block_store_release (Some (mk_block_store (Some bm) d)) id
  = if id <? BLOCK_STORE_NUM_BLOCKS then
      if bitmap_test bm id
      then Some (mk_block_store (Some (bitmap_reset bm id)) d)
      else Some (mk_block_store (Some bm) d)
    else Some (mk_block_store (Some bm) d).
Proof. reflexivity. Qed.

Ltac open_store s bm Hs :=
  let Hbm := fresh "Hbm" in
  let Hok := fresh "Hok" in
  let Hcount := fresh "Hcount" in
  let d := fresh "d" in
  let b := fresh "b" in
  destruct (store_ok_bitmap s Hs) as (bm & Hbm & Hok & Hcount);
  destruct s as [b d]; simpl in Hbm; subst b.

(** X3.  Requesting the same id twice in a row never succeeds the second
    time, and the second request changes nothing. *)
Theorem request_twice_fails (s : block_store_t) (block_id : Z) :
  store_ok s -> SizeT.in_range block_id ->
  fst (block_store_request (snd (block_store_request (Some s) block_id))
         block_id) = false /\
  snd (block_store_request (snd (block_store_request (Some s) block_id))
         block_id)
  = snd (block_store_request (Some s) block_id).
Proof.
  intros Hs Hid. unfold SizeT.in_range in Hid. open_store s bm Hs.
  pose proof (block_store_request_unfold bm d block_id) as Hfirst.
  destruct (Z.leb_spec BLOCK_STORE_NUM_BLOCKS block_id) as [Hge|Hlt].
  - rewrite Hfirst. cbn [snd]. rewrite Hfirst. split; reflexivity.
  - assert (0 <= block_id / 8 < Z.of_nat (length (bm_bytes bm))) as Hb
      by (apply bitmap_ok_byte_index; [assumption|lia]).
    destruct (bitmap_test bm block_id) eqn:Hbit; simpl negb in Hfirst;
      cbv iota in Hfirst.
    + rewrite Hfirst. cbn [snd]. rewrite Hfirst. split; reflexivity.
    + rewrite Hfirst. cbn [snd]. rewrite block_store_request_unfold.
      destruct (Z.leb_spec BLOCK_STORE_NUM_BLOCKS block_id); [lia|].
      rewrite bitmap_test_set by exact Hb. rewrite Z.eqb_refl.
      split; reflexivity.
Qed.

(** X4.  After a release, a request for the same id (below the number
    of blocks) succeeds, whatever the state of the block was before. *)
Theorem release_then_request_succeeds (s : block_store_t) (block_id : Z) :
  store_ok s -> 0 <= block_id < BLOCK_STORE_NUM_BLOCKS ->
  fst (block_store_request (block_store_release (Some s) block_id) block_id)
  = true.
Proof.
  intros Hs Hid. open_store s bm Hs.
  assert (0 <= block_id / 8 < Z.of_nat (length (bm_bytes bm))) as Hb
    by (apply bitmap_ok_byte_index; [assumption|lia]).
  rewrite block_store_release_unfold.
  destruct (Z.ltb_spec block_id BLOCK_STORE_NUM_BLOCKS); [|lia].
  destruct (bitmap_test bm block_id) eqn:Hbit;
    rewrite block_store_request_unfold;
    (destruct (Z.leb_spec BLOCK_STORE_NUM_BLOCKS block_id); [lia|]).
  - rewrite bitmap_test_reset by exact Hb. rewrite Z.eqb_refl. reflexivity.
  - rewrite Hbit. reflexivity.
Qed.

(** X5.  Releasing the same id twice is the same as releasing it once. *)
Theorem release_idempotent (s : block_store_t) (block_id : Z) :
  store_ok s -> SizeT.in_range block_id ->
  block_store_release (block_store_release (Some s) block_id) block_id
  = block_store_release (Some s) block_id.
Proof.
  intros Hs Hid. unfold SizeT.in_range in Hid. open_store s bm Hs.
  rewrite block_store_release_unfold.
  destruct (Z.ltb_spec block_id BLOCK_STORE_NUM_BLOCKS) as [Hlt|Hge].
  - assert (0 <= block_id / 8 < Z.of_nat (length (bm_bytes bm))) as Hb
      by (apply bitmap_ok_byte_index; [assumption|lia]).
    destruct (bitmap_test bm block_id) eqn:Hbit;
      rewrite block_store_release_unfold;
      (destruct (Z.ltb_spec block_id BLOCK_STORE_NUM_BLOCKS); [|lia]).
    + rewrite bitmap_test_reset by exact Hb. rewrite Z.eqb_refl. reflexivity.
    + rewrite Hbit. reflexivity.
  - rewrite block_store_release_unfold.
    destruct (Z.ltb_spec block_id BLOCK_STORE_NUM_BLOCKS); [lia|reflexivity].
Qed.

(** X6.  Releasing the block that a successful request or a successful
    allocation has just marked gives back the store exactly as it was
    before, bitmap bytes included. *)
Theorem release_undoes_request_and_allocate
    (s : block_store_t) (block_id : Z) :
  config_ok -> store_ok s -> SizeT.in_range block_id ->
  (fst (block_store_request (Some s) block_id) = true ->
   block_store_release (snd (block_store_request (Some s) block_id)) block_id
   = Some s) /\
  (fst (block_store_allocate (Some s)) <> SizeT.SIZE_MAX ->
   block_store_release (snd (block_store_allocate (Some s)))
     (fst (block_store_allocate (Some s)))
   = Some s).
Proof.
  intros Hcfg Hs Hid. unfold SizeT.in_range in Hid.
  assert (forall bm d r,
            bitmap_ok bm -> bit_count bm = BLOCK_STORE_NUM_BLOCKS ->
            0 <= r < BLOCK_STORE_NUM_BLOCKS -> bitmap_test bm r = false ->
            block_store_release
              (Some (mk_block_store (Some (bitmap_set bm r)) d)) r
            = Some (mk_block_store (Some bm) d)) as Hundo.
  { intros bm d r Hok Hcount Hr Hclear.
    assert (0 <= r / 8 < Z.of_nat (length (bm_bytes bm))) as Hb
      by (apply bitmap_ok_byte_index; [assumption|lia]).
    rewrite block_store_release_unfold.
    destruct (Z.ltb_spec r BLOCK_STORE_NUM_BLOCKS); [|lia].
    rewrite bitmap_test_set by exact Hb. rewrite Z.eqb_refl.
    rewrite bitmap_reset_set by assumption. reflexivity. }
  split.
  - open_store s bm Hs. rewrite block_store_request_unfold.
    destruct (Z.leb_spec BLOCK_STORE_NUM_BLOCKS block_id); [discriminate|].
    destruct (bitmap_test bm block_id) eqn:Hbit; [discriminate|].
    intros _. cbn [snd]. apply Hundo; try assumption. lia.
  - open_store s bm Hs. rewrite block_store_allocate_unfold.
    cbn [fst snd].
    destruct (allocate_scan_spec bm 0 (Z.to_nat block_store_get_total_blocks))
      as [[Heq _]|(r & Heq & Hr & _ & Hclr & _)];
      rewrite Heq; cbn [fst snd]; [congruence|].
    intros _. unfold block_store_get_total_blocks in Hr.
    assert (0 < BLOCK_STORE_NUM_BLOCKS) by (destruct Hcfg; assumption).
    apply Hundo; try assumption. lia.
Qed.


(** ** Counting *)

(** X7.  On a well-formed store a successful request and a successful
    allocation each raise [block_store_get_used_blocks] by exactly one,
    and the release of a block that is in use lowers it by exactly
    one. *)
Theorem used_blocks_steps (s : block_store_t) (block_id : Z) :
  config_ok -> store_ok s -> SizeT.in_range block_id ->
  (fst (block_store_request (Some s) block_id) = true ->
   block_store_get_used_blocks (snd (block_store_request (Some s) block_id))
   = block_store_get_used_blocks (Some s) + 1) /\
  (fst (block_store_allocate (Some s)) <> SizeT.SIZE_MAX ->
   block_store_get_used_blocks (snd (block_store_allocate (Some s)))
   = block_store_get_used_blocks (Some s) + 1) /\
  (forall bm, bitmap s = Some bm ->
     block_id < BLOCK_STORE_NUM_BLOCKS -> bitmap_test bm block_id = true ->
     block_store_get_used_blocks (block_store_release (Some s) block_id)
     = block_store_get_used_blocks (Some s) - 1).
Proof.
  intros Hcfg Hs Hid. unfold SizeT.in_range in Hid.
  assert (0 < BLOCK_STORE_NUM_BLOCKS) as HN by (destruct Hcfg; assumption).
  open_store s bm Hs.
  assert (forall r, 0 <= r < BLOCK_STORE_NUM_BLOCKS ->
            bitmap_test bm r = false ->
            block_store_get_used_blocks
              (Some (mk_block_store (Some (bitmap_set bm r)) d))
            = block_store_get_used_blocks
                (Some (mk_block_store (Some bm) d)) + 1) as Hset.
  { intros r Hr Hclear.
    rewrite !used_blocks_exact; try assumption.
    - rewrite bitmap_total_set_set by (assumption || lia). lia.
    - apply bitmap_set_ok; [assumption|lia]. }
  split; [|split].
  - rewrite block_store_request_unfold.
    destruct (Z.leb_spec BLOCK_STORE_NUM_BLOCKS block_id); [discriminate|].
    destruct (bitmap_test bm block_id) eqn:Hbit; [discriminate|].
    intros _. cbn [snd]. apply Hset; [lia|exact Hbit].
  - rewrite block_store_allocate_unfold. cbn [fst snd].
    destruct (allocate_scan_spec bm 0 (Z.to_nat block_store_get_total_blocks))
      as [[Heq _]|(r & Heq & Hr & _ & Hclr & _)];
      rewrite Heq; cbn [fst snd]; [congruence|].
    intros _. unfold block_store_get_total_blocks in Hr.
    apply Hset; [lia|exact Hclr].
  - intros bm' [= <-] Hlt Hbit.
    rewrite block_store_release_unfold.
    destruct (Z.ltb_spec block_id BLOCK_STORE_NUM_BLOCKS); [|lia].
    rewrite Hbit. rewrite !used_blocks_exact; try assumption.
    + rewrite bitmap_total_set_reset by (assumption || lia). lia.
    + apply bitmap_reset_ok; [assumption|lia].
Qed.

Lemma count_set_from_full bm i todo :
  count_set_from bm i todo = Z.of_nat todo ->
  forall j, i <= j < i + Z.of_nat todo -> bitmap_test bm j = true.
Proof.
  revert i. induction todo as [|todo IH]; intros i Hcount j Hj; [lia|].
  simpl count_set_from in Hcount.
  pose proof (count_set_from_bound bm (i + 1) todo) as Hbound.
  destruct (bitmap_test bm i) eqn:Hbit; [|lia].
  destruct (Z.eq_dec j i) as [->|Hne]; [exact Hbit|].
  apply (IH (i + 1)); lia.
Qed.

(** The set bits of a bitmap whose reserved range is clear, counted in
    the three stretches before, inside and after the reserved range. *)
Lemma total_set_split bm :
  config_ok -> bitmap_ok bm -> bit_count bm = BLOCK_STORE_NUM_BLOCKS ->
  reserved_clear bm ->
  bitmap_total_set bm
  = count_set_from bm 0 (Z.to_nat BITMAP_START_BLOCK)
    + count_set_from bm (BITMAP_START_BLOCK + BITMAP_NUM_BLOCKS)
        (Z.to_nat (BLOCK_STORE_NUM_BLOCKS - BITMAP_START_BLOCK
                   - BITMAP_NUM_BLOCKS)).
Proof.
  intros (HN & HB & Hbytes & HS & HL & HSL) Hok Hcount Hclear.
  rewrite bitmap_total_set_count by assumption. unfold count_set.
  rewrite Hcount.
  replace (Z.to_nat BLOCK_STORE_NUM_BLOCKS)
    with (Z.to_nat BITMAP_START_BLOCK
          + (Z.to_nat BITMAP_NUM_BLOCKS
             + Z.to_nat (BLOCK_STORE_NUM_BLOCKS - BITMAP_START_BLOCK
                         - BITMAP_NUM_BLOCKS)))%nat by lia.
  rewrite !count_set_from_app.
  rewrite (count_set_from_clear bm (0 + Z.of_nat (Z.to_nat BITMAP_START_BLOCK))
             (Z.to_nat BITMAP_NUM_BLOCKS))
    by (intros j Hj; apply Hclear, in_reserved_true; lia).
  replace (0 + Z.of_nat (Z.to_nat BITMAP_START_BLOCK)
           + Z.of_nat (Z.to_nat BITMAP_NUM_BLOCKS))
    with (BITMAP_START_BLOCK + BITMAP_NUM_BLOCKS) by lia.
  lia.
Qed.

(** X8.  While no bit of the reserved range is set, the free count is
    exact: [block_store_get_free_blocks] is the number of blocks outside
    the reserved range minus the number of set bits, it lies in
    [0, N], and it is 0 exactly when [block_store_allocate] returns
    [SIZE_MAX]. *)
Theorem free_blocks_exact_when_reserved_clear
    (s : block_store_t) (bm : bitmap_t) :
  config_ok -> store_ok s -> bitmap s = Some bm -> reserved_clear bm ->
  block_store_get_free_blocks (Some s)
  = BLOCK_STORE_NUM_BLOCKS - BITMAP_NUM_BLOCKS - count_set bm /\
  0 <= block_store_get_free_blocks (Some s) <= BLOCK_STORE_NUM_BLOCKS /\
  (block_store_get_free_blocks (Some s) = 0 <->
   fst (block_store_allocate (Some s)) = SizeT.SIZE_MAX).
Proof.
  intros Hcfg Hs Hbm Hclear.
  pose proof (config_ok_total_in_range Hcfg) as Hrange.
  destruct (store_ok_bitmap s Hs) as (bm' & Hbm' & Hok & Hcount).
  rewrite Hbm in Hbm'. injection Hbm' as <-.
  rewrite (store_ok_eta s bm Hbm), block_store_allocate_unfold. cbn [fst].
  rewrite (allocate_scan_fails_iff_full bm Hcfg).
  rewrite <- (bitmap_total_set_count bm Hok).
  pose proof (total_set_split bm Hcfg Hok Hcount Hclear) as Hsplit.
  pose proof (bitmap_total_set_count bm Hok) as Htotal.
  pose proof (count_set_from_bound bm 0 (Z.to_nat BITMAP_START_BLOCK)) as H1.
  pose proof (count_set_from_bound bm (BITMAP_START_BLOCK + BITMAP_NUM_BLOCKS)
                (Z.to_nat (BLOCK_STORE_NUM_BLOCKS - BITMAP_START_BLOCK
                           - BITMAP_NUM_BLOCKS))) as H3.
  assert (block_store_get_free_blocks
            (Some (mk_block_store (Some bm) (data s)))
          = BLOCK_STORE_NUM_BLOCKS - BITMAP_NUM_BLOCKS - bitmap_total_set bm)
    as Hfree.
  { rewrite free_blocks_valid, used_blocks_exact by assumption.
    unfold block_store_get_total_blocks.
    destruct Hcfg as (HN & HB & Hbytes & HS & HL & HSL).
    rewrite sub_no_underflow; [lia|exact Hrange|lia]. }
  rewrite Hfree.
  destruct Hcfg as (HN & HB & Hbytes & HS & HL & HSL).
  split; [lia|]. split; [lia|]. split.
  - intros Hzero j Hj Hnr. apply in_reserved_false in Hnr.
    destruct (Z.lt_ge_cases j BITMAP_START_BLOCK).
    + apply (count_set_from_full bm 0 (Z.to_nat BITMAP_START_BLOCK)); lia.
    + apply (count_set_from_full bm (BITMAP_START_BLOCK + BITMAP_NUM_BLOCKS)
               (Z.to_nat (BLOCK_STORE_NUM_BLOCKS - BITMAP_START_BLOCK
                          - BITMAP_NUM_BLOCKS))); lia.
  - intros Hfull.
    rewrite (count_set_from_all bm 0 (Z.to_nat BITMAP_START_BLOCK)) in Hsplit.
    + rewrite (count_set_from_all bm (BITMAP_START_BLOCK + BITMAP_NUM_BLOCKS))
        in Hsplit; [lia|].
      intros j Hj. apply Hfull; [lia|]. apply in_reserved_false. lia.
    + intros j Hj. apply Hfull; [lia|]. apply in_reserved_false. lia.
Qed.


(** ** Creation *)

Lemma read_block_bytes bm d id buf :
  config_ok -> Z.of_nat (length d) = BLOCK_STORE_NUM_BYTES ->
  0 <= id < BLOCK_STORE_NUM_BLOCKS ->
  Z.of_nat (length buf) = BLOCK_SIZE_BYTES ->
  block_store_read (Some (mk_block_store bm d)) id (Some buf)
  = Some (BLOCK_SIZE_BYTES, Some (block_bytes d id)).
Proof.
  intros Hcfg Hd Hid Hbuf.
  destruct (block_offset id Hcfg Hid) as (Hoff & Hoff0 & Hfit).
  unfold block_store_read, block_store_get_total_blocks, block_bytes.
  destruct (Z.leb_spec BLOCK_STORE_NUM_BLOCKS id); [lia|].
  destruct Hcfg as (HN & HB & _).
  simpl data. rewrite Hoff, mem_read_Some by lia. simpl.
  rewrite mem_write_whole; [reflexivity|].
  rewrite length_take, length_drop. lia.
Qed.

(** X9.  [block_store_create] fails exactly when one of its two
    allocations fails.  The store it returns is well formed, has every
    bit clear, counts only the reserved blocks as used and all the others
    as free, and every block of it reads as [BLOCK_SIZE_BYTES] zero
    bytes. *)
Theorem create_gives_empty_store (e : sys_env) :
  config_ok ->
  (block_store_create e = None <->
   calloc_ok e = false \/ bitmap_alloc_ok e = false) /\
  (forall s, block_store_create e = Some s ->
     store_ok s /\
     (forall bm j, bitmap s = Some bm -> bitmap_test bm j = false) /\
     block_store_get_used_blocks (Some s) = BITMAP_NUM_BLOCKS /\
     block_store_get_free_blocks (Some s)
     = BLOCK_STORE_NUM_BLOCKS - BITMAP_NUM_BLOCKS /\
     forall block_id buf,
       0 <= block_id < BLOCK_STORE_NUM_BLOCKS ->
       Z.of_nat (length buf) = BLOCK_SIZE_BYTES ->
       block_store_read (Some s) block_id (Some buf)
       = Some (BLOCK_SIZE_BYTES,
               Some (replicate (Z.to_nat BLOCK_SIZE_BYTES) x00))).
Proof.
  intros Hcfg. split.
  - unfold block_store_create, bitmap_create.
    destruct (calloc_ok e), (bitmap_alloc_ok e); split;
      try discriminate; try tauto; try (intros [H|H]; discriminate H).
  - intros s Hcreate.
    destruct (block_store_create_ok e s Hcfg Hcreate)
      as (Hs & Hclear & Hdata).
    pose proof (config_ok_total_in_range Hcfg) as Hrange.
    destruct (store_ok_bitmap s Hs) as (bm & Hbm & Hok & Hcount).
    assert (bitmap_total_set bm = 0) as Hzero.
    { unfold block_store_create in Hcreate.
      destruct (calloc_ok e); [|discriminate].
      destruct (bitmap_create (bitmap_alloc_ok e) BLOCK_STORE_NUM_BLOCKS)
        as [bm0|] eqn:Hbm0; [|discriminate].
      injection Hcreate as <-. simpl in Hbm. injection Hbm as <-.
      eapply bitmap_total_set_create. exact Hbm0. }
    assert (block_store_get_used_blocks (Some s) = BITMAP_NUM_BLOCKS)
      as Hused.
    { rewrite (store_ok_eta s bm Hbm), used_blocks_exact by assumption. lia. }
    split; [exact Hs|]. split; [exact Hclear|]. split; [exact Hused|].
    split.
    + rewrite (store_ok_eta s bm Hbm), free_blocks_valid.
      rewrite <- (store_ok_eta s bm Hbm), Hused.
      unfold block_store_get_total_blocks.
      destruct Hcfg as (HN & HB & Hbytes & HS & HL & HSL).
      rewrite sub_no_underflow; [reflexivity|exact Hrange|lia].
    + intros id buf Hid Hbuf. destruct Hs as [_ Hlen].
      destruct s as [b d]. simpl in Hdata, Hlen. 
      rewrite read_block_bytes by assumption.
      destruct (block_offset id Hcfg Hid) as (_ & Hoff0 & Hfit).
      do 3 f_equal. unfold block_bytes. rewrite Hdata.
      rewrite drop_replicate, take_replicate. f_equal.
      destruct Hcfg as (HN & HB & _). lia.
Qed.


(** ** Writes and the other blocks *)

Lemma splice_keeps_other_ranges (d src : list byte) (off off2 n : nat) :
  (off + length src <= length d)%nat ->
  (off2 + n <= off \/ off + length src <= off2)%nat ->
  take n (drop off2 (take off d ++ src ++ drop (off + length src) d))
  = take n (drop off2 d).
Proof.
  intros Hfit Hdisjoint. apply list_eq. intros k.
  rewrite !lookup_take. case_decide as Hk; [|reflexivity].
  rewrite !lookup_drop.
  assert (length (take off d) = off) as Htake
    by (rewrite length_take; lia).
  destruct Hdisjoint as [Hbefore|Hafter].
  - rewrite lookup_app_l by lia. apply lookup_take_lt. lia.
  - rewrite lookup_app_r by lia. rewrite lookup_app_r by lia.
    rewrite lookup_drop. f_equal. lia.
Qed.

Lemma block_start_nat i :
  config_ok -> 0 <= i < BLOCK_STORE_NUM_BLOCKS ->
  Z.to_nat (i * BLOCK_SIZE_BYTES)
  = (Z.to_nat i * Z.to_nat BLOCK_SIZE_BYTES)%nat.
Proof.
  intros (HN & HB & _) Hi. apply Z2Nat.inj_mul; lia.
Qed.

(** X10.  A write to block [i] changes the bytes of block [i] and
    nothing else: every other block reads as before, and the bitmap, so
    also the used count, is as before. *)
Theorem write_leaves_other_blocks
    (bm : option bitmap_t) (d src buf : list byte) (i j : Z) :
  config_ok ->
  Z.of_nat (length d) = BLOCK_STORE_NUM_BYTES ->
  0 <= i < BLOCK_STORE_NUM_BLOCKS -> 0 <= j < BLOCK_STORE_NUM_BLOCKS ->
  i <> j ->
  Z.of_nat (length src) = BLOCK_SIZE_BYTES ->
  Z.of_nat (length buf) = BLOCK_SIZE_BYTES ->
  exists d',
    block_store_write (Some (mk_block_store bm d)) i (Some src)
    = Some (BLOCK_SIZE_BYTES, Some (mk_block_store bm d')) /\
    block_store_read (Some (mk_block_store bm d')) j (Some buf)
    = block_store_read (Some (mk_block_store bm d)) j (Some buf) /\
    block_store_get_used_blocks (Some (mk_block_store bm d'))
    = block_store_get_used_blocks (Some (mk_block_store bm d)).
Proof.
  intros Hcfg Hd Hi Hj Hne Hsrc Hbuf.
  destruct (block_offset i Hcfg Hi) as (Hoff & Hoff0 & Hfit).
  pose proof (block_start_nat i Hcfg Hi) as Hi_nat.
  pose proof (block_start_nat j Hcfg Hj) as Hj_nat.
  pose proof (mem_read_whole src) as Hsrc_read. rewrite Hsrc in Hsrc_read.
  assert (0 < BLOCK_SIZE_BYTES) as HB by (destruct Hcfg as (_ & ? & _); lia).
  exists (take (Z.to_nat (i * BLOCK_SIZE_BYTES)) d ++ src
          ++ drop (Z.to_nat (i * BLOCK_SIZE_BYTES) + length src) d).
  split; [|split; [|reflexivity]].
  - unfold block_store_write, block_store_get_total_blocks.
    destruct (Z.leb_spec BLOCK_STORE_NUM_BLOCKS i); [lia|].
    rewrite Hoff. simpl data. simpl bitmap. rewrite Hsrc_read. simpl.
    rewrite mem_write_Some by lia. simpl. reflexivity.
  - rewrite !read_block_bytes; try assumption.
    + do 3 f_equal. unfold block_bytes.
      apply splice_keeps_other_ranges; [lia|].
      rewrite Hi_nat, Hj_nat.
      replace (length src) with (Z.to_nat BLOCK_SIZE_BYTES) by lia.
      assert (Z.to_nat j < Z.to_nat i \/ Z.to_nat i < Z.to_nat j)%nat
        as [Hlt|Hlt] by lia; [left|right]; nia.
    + rewrite !length_app, length_take, length_drop. lia.
Qed.

(** X11.  No sequence of Allocate, Request and Release calls changes a
    byte of the block array: afterwards every read returns what it
    returned before, and the store is still well formed. *)
Theorem bitmap_calls_leave_blocks_alone
    (s : block_store_t) (cs : list call) (block_id : Z)
    (buffer : option (list byte)) :
  store_ok s -> Forall call_in_range cs ->
  (exists s', run_calls (Some s) cs = Some s' /\ store_ok s' /\
              data s' = data s) /\
  block_store_read (run_calls (Some s) cs) block_id buffer
  = block_store_read (Some s) block_id buffer.
Proof.
  intros Hs Hcs.
  destruct (run_calls_ok cs s Hs Hcs) as (s' & Hrun & Hs' & Hdata).
  split; [exists s'; auto|].
  rewrite Hrun. unfold block_store_read. rewrite Hdata. reflexivity.
Qed.


(** ** Files *)

(** X12.  [block_store_deserialize] returns a store exactly when the
    file name is not null, the file exists and opens, both allocations
    succeed and the file holds at least [BLOCK_STORE_NUM_BYTES] bytes. *)
Theorem deserialize_succeeds_iff
    (e : sys_env) (fs : gmap string (list byte)) (filename : option string) :
  config_ok ->
  is_Some (fst (block_store_deserialize e fs filename)) <->
  exists path content,
    filename = Some path /\ fs !! path = Some content /\
    open_ok e = true /\ calloc_ok e = true /\ bitmap_alloc_ok e = true /\
    BLOCK_STORE_NUM_BYTES <= Z.of_nat (length content).
Proof.
  intros Hcfg. split.
  - intros [s Hs]. eapply deserialize_inversion. exact Hs.
  - intros (path & content & -> & Hfile & Hopen & Hcalloc & Hbm & Hlen).
    destruct (deserialize_success e fs path content Hcfg Hfile Hopen Hcalloc
                Hbm Hlen) as (bm & Heq & _).
    rewrite Heq. eexists. reflexivity.
Qed.

(** X13.  Bytes of the file past the first [BLOCK_STORE_NUM_BYTES] are
    ignored: a longer file loads exactly as its first
    [BLOCK_STORE_NUM_BYTES] bytes do. *)
Theorem deserialize_ignores_trailing_bytes
    (e : sys_env) (fs : gmap string (list byte)) (path : string)
    (content extra : list byte) :
  Z.of_nat (length content) = BLOCK_STORE_NUM_BYTES ->
  fs !! path = Some (content ++ extra) ->
  block_store_deserialize e fs (Some path)
  = block_store_deserialize e (<[path := content]> fs) (Some path).
Proof.
  intros Hlen Hfile. unfold block_store_deserialize.
  rewrite Hfile, lookup_insert_eq.
  destruct (open_ok e); [|reflexivity].
  destruct (calloc_ok e); [|reflexivity]. simpl negb. cbv iota.
  destruct (bitmap_create (bitmap_alloc_ok e) block_store_get_total_blocks);
    [|reflexivity].
  unfold sys_read.
  rewrite take_app_length' by lia.
  rewrite (take_ge content) by lia. reflexivity.
Qed.

(** X14.  [block_store_serialize] on a store and a file name returns
    either [BLOCK_STORE_NUM_BYTES] or 0, the former exactly when [open]
    succeeds and [write] takes all the bytes.  It touches no other file,
    and touches none at all when [open] fails.  When [open] succeeds the
    file at the path is replaced, whether or not the call then succeeds,
    by a prefix of the block array, which is shorter than the array when
    the call returns 0. *)
Theorem serialize_result_and_file
    (e : sys_env) (fs : gmap string (list byte)) (s : block_store_t)
    (path : string) :
  config_ok ->
  Z.of_nat (length (data s)) = BLOCK_STORE_NUM_BYTES ->
  (fst (block_store_serialize e fs (Some s) (Some path))
   = BLOCK_STORE_NUM_BYTES <->
   open_ok e = true /\ BLOCK_STORE_NUM_BYTES <= write_limit e) /\
  (fst (block_store_serialize e fs (Some s) (Some path))
   = BLOCK_STORE_NUM_BYTES \/
   fst (block_store_serialize e fs (Some s) (Some path)) = 0) /\
  (forall other, other <> path ->
     snd (block_store_serialize e fs (Some s) (Some path)) !! other
     = fs !! other) /\
  (open_ok e = false ->
   snd (block_store_serialize e fs (Some s) (Some path)) = fs) /\
  (open_ok e = true ->
   exists file,
     snd (block_store_serialize e fs (Some s) (Some path)) !! path
     = Some file /\
     file `prefix_of` data s /\
     (fst (block_store_serialize e fs (Some s) (Some path)) = 0 ->
      Z.of_nat (length file) < BLOCK_STORE_NUM_BYTES)).
Proof.
  intros Hcfg Hlen.
  assert (0 < BLOCK_STORE_NUM_BYTES) as Hbytes.
  { destruct Hcfg as (HN & HB & _). unfold BLOCK_STORE_NUM_BYTES. nia. }
  unfold block_store_serialize, sys_write.
  destruct (open_ok e) eqn:Hopen.
  - destruct (Z.ltb_spec (write_limit e) 0) as [Hneg|Hpos].
    + destruct (Z.eqb_spec (-1) BLOCK_STORE_NUM_BYTES) as [Heq|_]; [lia|].
      simpl negb. cbv iota. cbn [fst snd].
      split; [split; [lia|intros [_ H]; lia]|].
      split; [right; reflexivity|].
      split; [intros other Hne; apply lookup_insert_ne; congruence|].
      split; [discriminate|]. intros _.
      eexists. split; [apply lookup_insert_eq|].
      split; [apply prefix_take|]. intros _. simpl. lia.
    + destruct (Z.eqb_spec (Z.min (write_limit e) BLOCK_STORE_NUM_BYTES)
                  BLOCK_STORE_NUM_BYTES) as [Heq|Hne];
        simpl negb; cbv iota; cbn [fst snd].
      * split; [split; [intros _; split; [reflexivity|lia]|reflexivity]|].
        split; [left; reflexivity|].
        split; [intros other Hne; apply lookup_insert_ne; congruence|].
        split; [discriminate|]. intros _.
        eexists. split; [apply lookup_insert_eq|].
        split; [apply prefix_take|]. intros H0. lia.
      * split; [split; [lia|intros [_ H]; lia]|].
        split; [right; reflexivity|].
        split; [intros other Hne'; apply lookup_insert_ne; congruence|].
        split; [discriminate|]. intros _.
        eexists. split; [apply lookup_insert_eq|].
        split; [apply prefix_take|]. intros _.
        rewrite length_take. lia.
  - cbn [fst snd].
    split; [split; [lia|intros [H _]; discriminate H]|].
    split; [right; reflexivity|].
    split; [reflexivity|]. split; [reflexivity|discriminate].
Qed.

(** X15.  A save that fails after [open] has succeeded (a failed or
    short [write]) leaves a file that can no longer be loaded, even when
    a complete image was at that path before. *)
Theorem failed_save_leaves_unloadable_file
    (e e' : sys_env) (fs : gmap string (list byte)) (s : block_store_t)
    (path : string) :
  config_ok ->
  Z.of_nat (length (data s)) = BLOCK_STORE_NUM_BYTES ->
  open_ok e = true -> write_limit e < BLOCK_STORE_NUM_BYTES ->
  fst (block_store_serialize e fs (Some s) (Some path)) = 0 /\
  fst (block_store_deserialize e'
         (snd (block_store_serialize e fs (Some s) (Some path)))
         (Some path)) = None.
Proof.
  intros Hcfg Hlen Hopen Hshort.
  assert (0 < BLOCK_STORE_NUM_BYTES) as Hbytes.
  { destruct Hcfg as (HN & HB & _). unfold BLOCK_STORE_NUM_BYTES. nia. }
  assert (exists written,
            block_store_serialize e fs (Some s) (Some path)
            = (0, <[path := take written (data s)]> fs) /\
            Z.of_nat written < BLOCK_STORE_NUM_BYTES)
    as (written & Heq & Hwritten).
  { unfold block_store_serialize, sys_write. rewrite Hopen.
    destruct (Z.ltb_spec (write_limit e) 0).
    - destruct (Z.eqb_spec (-1) BLOCK_STORE_NUM_BYTES); [lia|].
      eexists. split; [reflexivity|]. simpl. lia.
    - rewrite Z.min_l by lia.
      destruct (Z.eqb_spec (write_limit e) BLOCK_STORE_NUM_BYTES); [lia|].
      eexists. split; [reflexivity|]. lia. }
  rewrite Heq. cbn [fst snd]. split; [reflexivity|].
  destruct (fst (block_store_deserialize e'
                   (<[path := take written (data s)]> fs) (Some path)))
    as [s'|] eqn:E; [|reflexivity].
  apply deserialize_inversion in E.
  destruct E as (path' & content & [= <-] & Hfile & _ & _ & _ & Hcontent).
  rewrite lookup_insert_eq in Hfile. injection Hfile as <-.
  rewrite length_take in Hcontent. lia.
Qed.

(** X16.  After a save and a load without failures the bit of every
    block is set exactly when the block held a non-zero byte at the time
    of the save, whatever the bitmap said then: a block that was written
    but never allocated comes back allocated, blocks of the reserved
    range included. *)
Theorem reload_marks_exactly_nonzero_blocks
    (e : sys_env) (fs : gmap string (list byte)) (s : block_store_t)
    (path : string) :
  config_ok -> env_ok e ->
  Z.of_nat (length (data s)) = BLOCK_STORE_NUM_BYTES ->
  exists s' bm',
    fst (block_store_deserialize e
           (snd (block_store_serialize e fs (Some s) (Some path)))
           (Some path)) = Some s' /\
    data s' = data s /\ bitmap s' = Some bm' /\
    forall i, 0 <= i < BLOCK_STORE_NUM_BLOCKS ->
      (bitmap_test bm' i = true <-> has_nonzero_byte (data s) i).
Proof.
  intros Hcfg Henv Hlen.
  rewrite (serialize_success e fs s path Hcfg Henv Hlen). cbn [snd].
  destruct Henv as (Hcalloc & Hbmok & Hopen & _).
  destruct (deserialize_success e (<[path := data s]> fs) path (data s)
              Hcfg (lookup_insert_eq _ _ _) Hopen Hcalloc Hbmok
              ltac:(lia)) as (bm' & Heq & _ & _ & Hbits).
  assert (take (Z.to_nat BLOCK_STORE_NUM_BYTES) (data s) = data s) as Htake
    by (apply take_ge; lia).
  rewrite Htake in Heq, Hbits.
  eexists. exists bm'. rewrite Heq. cbn [fst].
  split; [reflexivity|]. split; [reflexivity|]. split; [reflexivity|].
  intros i Hi. rewrite Hbits. tauto.
Qed.


(** ** Loading, then allocating *)

(** X17.  In a store that has just been loaded, [block_store_allocate]
    never hands out a block that holds data: the id it returns is below
    [N], outside the reserved range, and its block holds only zero
    bytes; it returns [SIZE_MAX] exactly when every block outside the
    reserved range holds a non-zero byte. *)
Theorem allocate_after_load_returns_zero_block
    (e : sys_env) (fs : gmap string (list byte)) (filename : option string)
    (s : block_store_t) :
  config_ok ->
  fst (block_store_deserialize e fs filename) = Some s ->
  (fst (block_store_allocate (Some s)) = SizeT.SIZE_MAX <->
   forall j, 0 <= j < BLOCK_STORE_NUM_BLOCKS -> in_reserved j = false ->
             has_nonzero_byte (data s) j) /\
  (fst (block_store_allocate (Some s)) <> SizeT.SIZE_MAX ->
   0 <= fst (block_store_allocate (Some s)) < BLOCK_STORE_NUM_BLOCKS /\
   in_reserved (fst (block_store_allocate (Some s))) = false /\
   ~ has_nonzero_byte (data s) (fst (block_store_allocate (Some s)))).
Proof.
  intros Hcfg Hload.
  destruct (deserialize_inversion _ _ _ _ Hload)
    as (path & content & -> & Hfile & Hopen & Hcalloc & Hbm & Hlen).
  destruct (deserialize_success e fs path content Hcfg Hfile Hopen Hcalloc
              Hbm Hlen) as (bm & Heq & Hok & Hcount & Hbits).
  rewrite Heq in Hload. cbn [fst] in Hload. injection Hload as <-.
  simpl data. rewrite block_store_allocate_unfold. cbn [fst].
  split.
  - rewrite (allocate_scan_fails_iff_full bm Hcfg). unfold all_unreserved_used.
    split; intros H j Hj Hnr.
    + apply Hbits. apply H; assumption.
    + apply Hbits. split; [exact Hj|]. apply H; assumption.
  - destruct (allocate_scan_spec bm 0 (Z.to_nat block_store_get_total_blocks))
      as [[Heqs _]|(r & Heqs & Hr & Hnr & Hclr & _)];
      rewrite Heqs; cbn [fst]; [congruence|].
    intros _. unfold block_store_get_total_blocks in Hr.
    assert (0 < BLOCK_STORE_NUM_BLOCKS) by (destruct Hcfg; assumption).
    split; [lia|]. split; [exact Hnr|].
    intros Hnz. assert (bitmap_test bm r = true) as Hset
      by (apply Hbits; split; [lia|exact Hnz]).
    congruence.
Qed.

(** ** Resources over the life of a store *)

(** X18.  Creation and loading leak nothing.  A failed
    [block_store_create] holds no resource when it returns; a store that
    [block_store_create] or [block_store_deserialize] has returned holds
    its memory, its bitmap and no file descriptor, and
    [block_store_destroy] gives back all of it.  [block_store_destroy]
    on a null store does nothing. *)
Theorem create_load_destroy_leak_nothing
    (e : sys_env) (fs : gmap string (list byte)) (filename : option string)
    (r : resource) :
  (block_store_create e = None -> held r (block_store_create_events e) = 0) /\
  (forall s, block_store_create e = Some s ->
     held FileDescriptor (block_store_create_events e) = 0 /\
     held StoreMemory (block_store_create_events e) = 1 /\
     held BitmapMemory (block_store_create_events e) = 1 /\
     held r (block_store_create_events e ++ block_store_destroy (Some s))
     = 0) /\
  (forall s, fst (block_store_deserialize e fs filename) = Some s ->
     held FileDescriptor (snd (block_store_deserialize e fs filename)) = 0 /\
     held StoreMemory (snd (block_store_deserialize e fs filename)) = 1 /\
     held BitmapMemory (snd (block_store_deserialize e fs filename)) = 1 /\
     held r (snd (block_store_deserialize e fs filename)
             ++ block_store_destroy (Some s)) = 0) /\
  block_store_destroy None = [].
Proof.
  split; [|split; [|split; [|reflexivity]]].
  - unfold block_store_create, block_store_create_events.
    destruct (calloc_ok e); [|reflexivity].
    destruct (bitmap_create (bitmap_alloc_ok e) BLOCK_STORE_NUM_BLOCKS);
      [discriminate|].
    intros _. destruct r; reflexivity.
  - intros s. unfold block_store_create, block_store_create_events.
    destruct (calloc_ok e); [|discriminate].
    destruct (bitmap_create (bitmap_alloc_ok e) BLOCK_STORE_NUM_BLOCKS);
      [|discriminate].
    intros [= <-]. repeat split; try reflexivity.
    destruct r; reflexivity.
  - intros s. unfold block_store_deserialize.
    destruct filename as [path|]; [|discriminate].
    destruct (if open_ok e then fs !! path else None) as [content|];
      [|discriminate].
    destruct (calloc_ok e); simpl negb; cbv iota; [|discriminate].
    destruct (bitmap_create (bitmap_alloc_ok e) block_store_get_total_blocks);
      [|discriminate].
    destruct (negb _); [discriminate|].
    cbn [fst snd]. intros [= <-]. repeat split; try reflexivity.
    destruct r; reflexivity.
Qed.

(** ** The early revision of the allocation loop *)

(** X19.  The allocation loop of the early revision of the file and the
    final loop return the same id and bitmap as long as no scanned index
    is reserved.  They differ when block 0 is reserved and free: the
    early loop hands out block 0, the final loop never returns 0. *)
Theorem early_loop_differs_only_on_reserved
    (bm : bitmap_t) (i : Z) (todo : nat) :
  ((forall j, i <= j < i + Z.of_nat todo -> in_reserved j = false) ->
   allocate_scan_early bm i todo = allocate_scan bm i todo) /\
  (in_reserved 0 = true -> bitmap_test bm 0 = false ->
   fst (allocate_scan_early bm 0 (S todo)) = 0 /\
   fst (allocate_scan bm 0 (S todo)) <> 0).
Proof.
  split.
  - apply allocate_scan_early_agrees.
  - intros Hres Hclear. split.
    + rewrite allocate_scan_early_fresh by exact Hclear. reflexivity.
    + destruct (allocate_scan_spec bm 0 (S todo))
        as [[Heq _]|(r & Heq & _ & Hnr & _)]; rewrite Heq; cbn [fst].
      * discriminate.
      * intros ->. congruence.
Qed.


(** ** What read and write return *)

Lemma write_block_result bm d src i :
  config_ok -> Z.of_nat (length d) = BLOCK_STORE_NUM_BYTES ->
  0 <= i < BLOCK_STORE_NUM_BLOCKS ->
  Z.of_nat (length src) = BLOCK_SIZE_BYTES ->
  block_store_write (Some (mk_block_store bm d)) i (Some src)
  = Some (BLOCK_SIZE_BYTES,
          Some (mk_block_store bm
                  (take (Z.to_nat (i * BLOCK_SIZE_BYTES)) d ++ src
                   ++ drop (Z.to_nat (i * BLOCK_SIZE_BYTES) + length src)
                        d))).
Proof.
  intros Hcfg Hd Hi Hsrc.
  destruct (block_offset i Hcfg Hi) as (Hoff & Hoff0 & Hfit).
  pose proof (mem_read_whole src) as Hsrc_read. rewrite Hsrc in Hsrc_read.
  unfold block_store_write, block_store_get_total_blocks.
  destruct (Z.leb_spec BLOCK_STORE_NUM_BLOCKS i); [lia|].
  rewrite Hoff. simpl data. simpl bitmap. rewrite Hsrc_read. simpl.
  rewrite mem_write_Some by lia. reflexivity.
Qed.

(** X20.  On a store with a full block array, [block_store_read] and
    [block_store_write] return [BLOCK_SIZE_BYTES] exactly when the buffer
    is not null and the id is below the number of blocks; in every other
    case they return 0 and leave the buffer and the store as they were.
    On a null store both return 0. *)
Theorem read_write_return_values
    (s : block_store_t) (block_id : Z) (buffer : option (list byte)) :
  config_ok ->
  Z.of_nat (length (data s)) = BLOCK_STORE_NUM_BYTES ->
  SizeT.in_range block_id ->
  (forall b, buffer = Some b -> Z.of_nat (length b) = BLOCK_SIZE_BYTES) ->
  (fst <$> block_store_read (Some s) block_id buffer = Some BLOCK_SIZE_BYTES
   <-> is_Some buffer /\ block_id < BLOCK_STORE_NUM_BLOCKS) /\
  (fst <$> block_store_read (Some s) block_id buffer
   <> Some BLOCK_SIZE_BYTES ->
   block_store_read (Some s) block_id buffer = Some (0, buffer)) /\
  (fst <$> block_store_write (Some s) block_id buffer = Some BLOCK_SIZE_BYTES
   <-> is_Some buffer /\ block_id < BLOCK_STORE_NUM_BLOCKS) /\
  (fst <$> block_store_write (Some s) block_id buffer
   <> Some BLOCK_SIZE_BYTES ->
   block_store_write (Some s) block_id buffer = Some (0, Some s)) /\
  block_store_read None block_id buffer = Some (0, buffer) /\
  block_store_write None block_id buffer = Some (0, None).
Proof.
  intros Hcfg Hd Hid Hbuf. unfold SizeT.in_range in Hid.
  assert (0 < BLOCK_SIZE_BYTES) as HB by (destruct Hcfg as (_ & ? & _); lia).
  destruct s as [bm d]. simpl data in Hd.
  destruct buffer as [b|].
  - specialize (Hbuf b eq_refl).
    destruct (Z.lt_ge_cases block_id BLOCK_STORE_NUM_BLOCKS) as [Hlt|Hge].
    + rewrite read_block_bytes, write_block_result by (assumption || lia).
      cbn [fmap option_fmap option_map fst].
      split; [split; [intros _; split; [eexists; reflexivity|exact Hlt]
                     |reflexivity]|].
      split; [intros Hne; congruence|].
      split; [split; [intros _; split; [eexists; reflexivity|exact Hlt]
                     |reflexivity]|].
      split; [intros Hne; congruence|]. split; reflexivity.
    + assert (block_store_read (Some (mk_block_store bm d)) block_id (Some b)
              = Some (0, Some b)) as Hr.
      { unfold block_store_read, block_store_get_total_blocks.
        destruct (Z.leb_spec BLOCK_STORE_NUM_BLOCKS block_id); [|lia].
        reflexivity. }
      assert (block_store_write (Some (mk_block_store bm d)) block_id (Some b)
              = Some (0, Some (mk_block_store bm d))) as Hw.
      { unfold block_store_write, block_store_get_total_blocks.
        destruct (Z.leb_spec BLOCK_STORE_NUM_BLOCKS block_id); [|lia].
        reflexivity. }
      rewrite Hr, Hw. cbn [fmap option_fmap option_map fst].
      split; [split; [intros [= Hz]; lia|intros [_ Hlt]; lia]|].
      split; [reflexivity|].
      split; [split; [intros [= Hz]; lia|intros [_ Hlt]; lia]|].
      split; [reflexivity|]. split; reflexivity.
  - cbn.
    split; [split; [intros [= Hz]; lia|intros [[b Hb] _]; discriminate Hb]|].
    split; [reflexivity|].
    split; [split; [intros [= Hz]; lia|intros [[b Hb] _]; discriminate Hb]|].
    split; [reflexivity|]. split; reflexivity.
Qed.

Lemma splice_twice (d src1 src2 : list byte) (o : nat) :
  (o + length src1 <= length d)%nat -> length src1 = length src2 ->
  take o (take o d ++ src1 ++ drop (o + length src1) d) ++ src2
  ++ drop (o + length src2) (take o d ++ src1 ++ drop (o + length src1) d)
  = take o d ++ src2 ++ drop (o + length src2) d.
Proof.
  intros Hfit Hlen.
  assert (length (take o d) = o) as Htake by (rewrite length_take; lia).
  rewrite take_app_length' by (symmetry; exact Htake).
  rewrite drop_app_add' by (symmetry; exact Htake).
  rewrite <- Hlen, drop_app_length. reflexivity.
Qed.

(** X21.  Of two writes to the same block only the second counts: the
    store after both is the store after the second alone. *)
Theorem write_twice_keeps_last
    (bm : option bitmap_t) (d src1 src2 : list byte) (i : Z) :
  config_ok ->
  Z.of_nat (length d) = BLOCK_STORE_NUM_BYTES ->
  0 <= i < BLOCK_STORE_NUM_BLOCKS ->
  Z.of_nat (length src1) = BLOCK_SIZE_BYTES ->
  Z.of_nat (length src2) = BLOCK_SIZE_BYTES ->
  exists d1,
    block_store_write (Some (mk_block_store bm d)) i (Some src1)
    = Some (BLOCK_SIZE_BYTES, Some (mk_block_store bm d1)) /\
    block_store_write (Some (mk_block_store bm d1)) i (Some src2)
    = block_store_write (Some (mk_block_store bm d)) i (Some src2).
Proof.
  intros Hcfg Hd Hi Hsrc1 Hsrc2.
  destruct (block_offset i Hcfg Hi) as (_ & Hoff0 & Hfit).
  eexists. split; [apply write_block_result; assumption|].
  rewrite !write_block_result; try assumption.
  - rewrite splice_twice by lia. reflexivity.
  - rewrite !length_app, length_take, length_drop. lia.
Qed.

Lemma splice_same (d : list byte) (o n : nat) :
  take o d ++ take n (drop o d) ++ drop (o + n) d = d.
Proof.
  rewrite <- drop_drop. rewrite (take_drop n (drop o d)). apply take_drop.
Qed.

(** X22.  Writing back the bytes that a read has just returned leaves
    the store exactly as it was. *)
Theorem write_back_what_was_read
    (s : block_store_t) (buf got : list byte) (i : Z) :
  config_ok ->
  Z.of_nat (length (data s)) = BLOCK_STORE_NUM_BYTES ->
  0 <= i < BLOCK_STORE_NUM_BLOCKS ->
  Z.of_nat (length buf) = BLOCK_SIZE_BYTES ->
  block_store_read (Some s) i (Some buf) = Some (BLOCK_SIZE_BYTES, Some got) ->
  block_store_write (Some s) i (Some got) = Some (BLOCK_SIZE_BYTES, Some s).
Proof.
  intros Hcfg Hd Hi Hbuf Hread.
  destruct s as [bm d]. simpl data in Hd.
  destruct (block_offset i Hcfg Hi) as (_ & Hoff0 & Hfit).
  assert (0 < BLOCK_SIZE_BYTES) as HB by (destruct Hcfg as (_ & ? & _); lia).
  rewrite read_block_bytes in Hread by assumption.
  injection Hread as <-.
  assert (length (block_bytes d i) = Z.to_nat BLOCK_SIZE_BYTES) as Hlen.
  { unfold block_bytes. rewrite length_take, length_drop. lia. }
  rewrite write_block_result by (assumption || lia).
  rewrite Hlen. unfold block_bytes. rewrite splice_same. reflexivity.
Qed.

(** X23.  Saving a store that has just been loaded writes back the
    first [BLOCK_STORE_NUM_BYTES] bytes of the file it was loaded from,
    and nothing else. *)
Theorem load_then_save_reproduces_image
    (e e' : sys_env) (fs fs' : gmap string (list byte))
    (path path' : string) (content : list byte) (s : block_store_t) :
  config_ok -> env_ok e' ->
  fs !! path = Some content ->
  fst (block_store_deserialize e fs (Some path)) = Some s ->
  block_store_serialize e' fs' (Some s) (Some path')
  = (BLOCK_STORE_NUM_BYTES,
     <[path' := take (Z.to_nat BLOCK_STORE_NUM_BYTES) content]> fs').
Proof.
  intros Hcfg Henv Hfile Hload.
  destruct (deserialize_inversion _ _ _ _ Hload)
    as (p & content' & [= <-] & Hfile' & Hopen & Hcalloc & Hbm & Hlen).
  rewrite Hfile in Hfile'. injection Hfile' as <-.
  destruct (deserialize_success e fs path content Hcfg Hfile Hopen Hcalloc
              Hbm Hlen) as (bm & Heq & _).
  rewrite Heq in Hload. cbn [fst] in Hload. injection Hload as <-.
  assert (0 <= BLOCK_STORE_NUM_BYTES)
    by (destruct Hcfg as (HN & HB & _); unfold BLOCK_STORE_NUM_BYTES; nia).
  rewrite serialize_success; try assumption; [reflexivity|].
  simpl data. rewrite length_take. lia.
Qed.

(** ** Sequences of calls that leave the reserved range alone *)

Lemma run_call_keeps_reserved_clear s bm c :
  store_ok s -> bitmap s = Some bm -> reserved_clear bm ->
  call_in_range c -> call_avoids_reserved c ->
  exists s' bm', run_call (Some s) c = Some s' /\ store_ok s' /\
                 bitmap s' = Some bm' /\ reserved_clear bm'.
Proof.
  intros Hs Hbm Hclear Hrange Havoid.
  destruct (store_ok_bitmap s Hs) as (bm0 & Hbm0 & Hok & Hcount).
  rewrite Hbm in Hbm0. injection Hbm0 as <-.
  destruct Hs as [_ Hlen].
  destruct s as [b d]. simpl in Hbm, Hlen. subst b.
  destruct c as [|id|id]; unfold run_call.
  - rewrite block_store_allocate_unfold. cbn [snd].
    destruct (allocate_scan_spec bm 0 (Z.to_nat block_store_get_total_blocks))
      as [[Heq _]|(r & Heq & Hr & Hnr & Hclr & _)]; rewrite Heq; cbn [snd].
    + eexists. exists bm. split; [reflexivity|].
      split; [apply store_ok_intro; assumption|]. split; [reflexivity|].
      exact Hclear.
    + unfold block_store_get_total_blocks in Hr.
      eexists. exists (bitmap_set bm r). split; [reflexivity|].
      split; [apply store_ok_intro; try assumption;
              apply bitmap_set_ok; [assumption|lia]|].
      split; [reflexivity|].
      intros j Hj. rewrite bitmap_test_set
        by (apply bitmap_ok_byte_index; [assumption|lia]).
      destruct (Z.eqb_spec j r) as [->|_]; [congruence|apply Hclear, Hj].
  - simpl in Hrange, Havoid. unfold SizeT.in_range in Hrange.
    rewrite block_store_request_unfold.
    destruct (Z.leb_spec BLOCK_STORE_NUM_BLOCKS id).
    + eexists. exists bm. split; [reflexivity|].
      split; [apply store_ok_intro; assumption|]. split; [reflexivity|].
      exact Hclear.
    + destruct (bitmap_test bm id); simpl negb; cbv iota; cbn [snd].
      * eexists. exists bm. split; [reflexivity|].
        split; [apply store_ok_intro; assumption|]. split; [reflexivity|].
        exact Hclear.
      * eexists. exists (bitmap_set bm id). split; [reflexivity|].
        split; [apply store_ok_intro; try assumption;
                apply bitmap_set_ok; [assumption|lia]|].
        split; [reflexivity|].
        intros j Hj. rewrite bitmap_test_set
          by (apply bitmap_ok_byte_index; [assumption|lia]).
        destruct (Z.eqb_spec j id) as [->|_]; [congruence|apply Hclear, Hj].
  - simpl in Hrange. unfold SizeT.in_range in Hrange.
    rewrite block_store_release_unfold.
    destruct (Z.ltb_spec id BLOCK_STORE_NUM_BLOCKS).
    + destruct (bitmap_test bm id).
      * eexists. exists (bitmap_reset bm id). split; [reflexivity|].
        split; [apply store_ok_intro; try assumption;
                apply bitmap_reset_ok; [assumption|lia]|].
        split; [reflexivity|].
        intros j Hj. rewrite bitmap_test_reset
          by (apply bitmap_ok_byte_index; [assumption|lia]).
        destruct (Z.eqb_spec j id); [reflexivity|apply Hclear, Hj].
      * eexists. exists bm. split; [reflexivity|].
        split; [apply store_ok_intro; assumption|]. split; [reflexivity|].
        exact Hclear.
    + eexists. exists bm. split; [reflexivity|].
      split; [apply store_ok_intro; assumption|]. split; [reflexivity|].
      exact Hclear.
Qed.

Lemma run_calls_keep_reserved_clear cs : forall s bm,
  store_ok s -> bitmap s = Some bm -> reserved_clear bm ->
  Forall call_in_range cs -> Forall call_avoids_reserved cs ->
  exists s' bm', run_calls (Some s) cs = Some s' /\ store_ok s' /\
                 bitmap s' = Some bm' /\ reserved_clear bm'.
Proof.
  induction cs as [|c cs IH]; intros s bm Hs Hbm Hclear Hrange Havoid.
  - exists s, bm. auto.
  - inversion Hrange as [|? ? Hc Hcs]; subst.
    inversion Havoid as [|? ? Ha Has]; subst.
    destruct (run_call_keeps_reserved_clear s bm c Hs Hbm Hclear Hc Ha)
      as (s1 & bm1 & Hrun & Hs1 & Hbm1 & Hclear1).
    destruct (IH s1 bm1 Hs1 Hbm1 Hclear1 Hcs Has) as (s' & bm' & Hrun' & Hrest).
    exists s', bm'. unfold run_calls in *. simpl fold_left.
    rewrite Hrun. split; [exact Hrun'|exact Hrest].
Qed.

(** X24.  Starting from a well-formed store whose reserved bits are
    clear (a fresh store, for one), allocations, releases and requests
    for ids outside the reserved range never set a reserved bit; so the
    used count stays within the total, the free count is the true
    difference, and used plus free is the total as integers, with no
    wrap-around. *)
Theorem counts_exact_without_reserved_requests
    (s : block_store_t) (bm : bitmap_t) (cs : list call) :
  config_ok -> store_ok s -> bitmap s = Some bm -> reserved_clear bm ->
  Forall call_in_range cs -> Forall call_avoids_reserved cs ->
  (exists s' bm', run_calls (Some s) cs = Some s' /\
                  bitmap s' = Some bm' /\ reserved_clear bm') /\
  block_store_get_used_blocks (run_calls (Some s) cs)
  <= block_store_get_total_blocks /\
  0 <= block_store_get_free_blocks (run_calls (Some s) cs) /\
  block_store_get_used_blocks (run_calls (Some s) cs)
  + block_store_get_free_blocks (run_calls (Some s) cs)
  = block_store_get_total_blocks.
Proof.
  intros Hcfg Hs Hbm Hclear Hrange Havoid.
  destruct (run_calls_keep_reserved_clear cs s bm Hs Hbm Hclear Hrange Havoid)
    as (s' & bm' & Hrun & Hs' & Hbm' & Hclear').
  split; [exists s', bm'; auto|].
  rewrite Hrun.
  destruct (store_ok_bitmap s' Hs') as (bm0 & Hbm0 & Hok & Hcount).
  rewrite Hbm' in Hbm0. injection Hbm0 as <-.
  rewrite (store_ok_eta s' bm' Hbm').
  pose proof (used_within_total_when_reserved_clear bm' (data s') Hcfg Hok
                Hcount Hclear') as Hle.
  pose proof (used_blocks_in_range
                (Some (mk_block_store (Some bm') (data s')))) as Hused.
  pose proof (config_ok_total_in_range Hcfg) as Htotal.
  unfold SizeT.in_range in Hused.
  rewrite free_blocks_valid.
  rewrite sub_no_underflow;
    [|exact Htotal|unfold block_store_get_total_blocks in *; lia].
  unfold block_store_get_total_blocks in *. lia.
Qed.


(** ** The early revision, from a fresh store *)

Lemma allocate_scan_early_first_clear bm todo : forall i r,
  i <= r < i + Z.of_nat todo ->
  (forall j, i <= j < r -> bitmap_test bm j = true) ->
  bitmap_test bm r = false ->
  allocate_scan_early bm i todo = (r, bitmap_set bm r).
Proof.
  induction todo as [|todo IH]; intros i r Hr Hset Hclear; [lia|].
  simpl allocate_scan_early.
  destruct (Z.eq_dec i r) as [->|Hne].
  - rewrite Hclear. reflexivity.
  - rewrite Hset by lia. simpl negb. cbv iota.
    apply IH; [lia| |exact Hclear].
    intros j Hj. apply Hset. lia.
Qed.

Lemma elem_of_indices_from j i todo :
  j ∈ indices_from i todo <-> i <= j < i + Z.of_nat todo.
Proof.
  revert i. induction todo as [|todo IH]; intros i; simpl indices_from.
  - rewrite elem_of_nil. lia.
  - rewrite elem_of_cons, IH. lia.
Qed.

Lemma allocate_many_early_in_order k : forall f bm d,
  bitmap_ok bm -> bit_count bm = BLOCK_STORE_NUM_BLOCKS ->
  (forall j, bitmap_test bm j = true <-> 0 <= j < f) ->
  0 <= f -> f + Z.of_nat k <= BLOCK_STORE_NUM_BLOCKS ->
  exists bm',
    allocate_many_early k (Some (mk_block_store (Some bm) d))
    = Some (indices_from f k, Some (mk_block_store (Some bm') d)).
Proof.
  induction k as [|k IH]; intros f bm d Hok Hcount Hbits Hf Hfit.
  - exists bm. reflexivity.
  - assert (allocate_scan_early bm 0 (Z.to_nat BLOCK_STORE_NUM_BLOCKS)
            = (f, bitmap_set bm f)) as Hscan.
    { apply allocate_scan_early_first_clear; [lia| |].
      - intros j Hj. apply Hbits. lia.
      - destruct (bitmap_test bm f) eqn:E; [|reflexivity].
        apply Hbits in E. lia. }
    destruct (IH (f + 1) (bitmap_set bm f) d) as (bm' & Hmany);
      try lia.
    { apply bitmap_set_ok; [assumption|lia]. }
    { exact Hcount. }
    { intros j. rewrite bitmap_test_set
        by (apply bitmap_ok_byte_index; [assumption|lia]).
      destruct (Z.eqb_spec j f) as [->|Hne].
      - split; [lia|reflexivity].
      - rewrite Hbits. lia. }
    exists bm'. simpl allocate_many_early. simpl indices_from.
    unfold block_store_allocate_early. simpl bitmap. cbv iota.
    rewrite Hscan. simpl data. rewrite Hmany. reflexivity.
Qed.

(** C1.  The early revision of [block_store_allocate]
    ([src/block_store.c]) does not keep the reserved range out.  On a
    freshly created store its first [k] calls, for any [k] up to the
    number of blocks, return the indices [0, 1, ..., k - 1], every one
    of them, reserved or not; so as soon as [k] exceeds
    [BITMAP_START_BLOCK] the reserved index [BITMAP_START_BLOCK] has
    been handed out. *)
Theorem allocate_early_hands_out_reserved_ids
    (e : sys_env) (s : block_store_t) (k : nat) :
  config_ok -> 0 < BITMAP_NUM_BLOCKS ->
  block_store_create e = Some s ->
  Z.of_nat k <= BLOCK_STORE_NUM_BLOCKS ->
  (exists s',
     allocate_many_early k (Some s) = Some (indices_from 0 k, Some s')) /\
  (forall i, i ∈ indices_from 0 k <-> 0 <= i < Z.of_nat k) /\
  (BITMAP_START_BLOCK < Z.of_nat k ->
   BITMAP_START_BLOCK ∈ indices_from 0 k /\
   in_reserved BITMAP_START_BLOCK = true).
Proof.
  intros Hcfg HL Hcreate Hk.
  destruct (block_store_create_ok e s Hcfg Hcreate)
    as (Hstore & Hclear & _).
  destruct (store_ok_bitmap s Hstore) as (bm & Hbm & Hok & Hcount).
  destruct s as [b d]. simpl in Hbm. subst b.
  split; [|split].
  - destruct (allocate_many_early_in_order k 0 bm d Hok Hcount)
      as (bm' & Hmany); try lia.
    { intros j. rewrite (Hclear bm j eq_refl). split; [discriminate|lia]. }
    exists (mk_block_store (Some bm') d). exact Hmany.
  - intros i. rewrite elem_of_indices_from. lia.
  - intros Hstart.
    destruct Hcfg as (_ & _ & _ & HS & _).
    split; [apply elem_of_indices_from; lia|].
    apply in_reserved_true. lia.
Qed.

End BlockStoreMore.

(** * The small store, run *)

#[local] Existing Instance small_config.

Lemma small_config_ok : config_ok.
Proof. unfold config_ok, BLOCK_STORE_NUM_BYTES. simpl. lia. Defined.

Lemma plain_env_ok : env_ok plain_env.
Proof. unfold env_ok, BLOCK_STORE_NUM_BYTES. simpl. repeat split. lia. Defined.

Lemma fresh_store_created : block_store_create plain_env = Some fresh_store.
Proof. reflexivity. Defined.

Lemma fresh_store_ok : store_ok fresh_store.
Proof.
  exact (proj1 (block_store_create_ok plain_env fresh_store
                  small_config_ok fresh_store_created)).
Defined.

(** The scenario of the specification: 14 free blocks at first; four
    allocations return 2, 3, 4, 5; after releasing 3 there are 11 free
    blocks and the next allocation returns 3 again. *)
Example small_store_scenario :
  block_store_get_free_blocks (Some fresh_store) = 14 /\
  fst (allocate_many 4 (Some fresh_store)) = [2; 3; 4; 5] /\
  (let released :=
     block_store_release (snd (allocate_many 4 (Some fresh_store))) 3 in
   block_store_get_free_blocks released = 11 /\
   fst (block_store_allocate released) = 3).
Proof. vm_compute. repeat split. Qed.

Lemma allocate_fresh_first_fit_witness :
  config_ok /\ block_store_create plain_env = Some fresh_store /\
  exists s',
    allocate_many 14 (Some fresh_store)
    = ([2; 3; 4; 5; 6; 7; 8; 9; 10; 11; 12; 13; 14; 15], Some s') /\
    fst (block_store_allocate (Some s')) = SizeT.SIZE_MAX.
Proof.
  split; [exact small_config_ok|]. split; [reflexivity|].
  destruct (allocate_fresh_first_fit plain_env fresh_store
              small_config_ok fresh_store_created)
    as (s' & Hmany & Hnext & _).
  exists s'. split; [exact Hmany|exact Hnext].
Defined.


Lemma get_used_blocks_counts_bits_plus_reserved_witness :
  config_ok /\
  block_store_get_used_blocks None = SizeT.SIZE_MAX /\
  exists bm, bitmap fresh_store = Some bm /\
             block_store_get_used_blocks (Some fresh_store)
             = count_set bm + 2.
Proof.
  split; [exact small_config_ok|].
  destruct (get_used_blocks_counts_bits_plus_reserved small_config_ok)
    as (Hvalid & Hnull & _).
  split; [exact Hnull|].
  destruct (Hvalid fresh_store fresh_store_ok) as (bm & Hbm & _ & Hused).
  exists bm. split; [exact Hbm|exact Hused].
Defined.

Lemma block_store_request_spec_witness :
  SizeT.in_range 1 /\
  fst (block_store_request (Some fresh_store) 1) = true.
Proof.
  assert (SizeT.in_range 1) as Hid
    by (unfold SizeT.in_range; vm_compute; split; discriminate).
  split; [exact Hid|].
  destruct (block_store_request_spec (Some fresh_store) 1 Hid)
    as (_ & _ & _ & Hreserved).
  apply (Hreserved fresh_store (mk_bitmap 16 [0; 0])); reflexivity.
Defined.

Lemma block_store_release_spec_witness :
  SizeT.in_range 5 /\
  block_store_get_free_blocks (block_store_release (Some fresh_store) 5)
  = block_store_get_free_blocks (Some fresh_store).
Proof.
  assert (SizeT.in_range 5) as Hid
    by (unfold SizeT.in_range; vm_compute; split; discriminate).
  split; [exact Hid|].
  destruct (block_store_release_spec (Some fresh_store) 5 Hid)
    as (_ & _ & Hfree).
  apply (Hfree fresh_store (mk_bitmap 16 [0; 0])); reflexivity.
Defined.

Lemma write_then_read_roundtrip_witness :
  config_ok /\
  exists d',
    block_store_write (Some (mk_block_store None (replicate 64 x00))) 15
      (Some [x0a; x0b; x0c; x0d])
    = Some (4, Some (mk_block_store None d')) /\
    Z.of_nat (length d') = 64 /\
    block_store_read (Some (mk_block_store None d')) 15
      (Some [xff; xff; xff; xff])
    = Some (4, Some [x0a; x0b; x0c; x0d]).
Proof.
  split; [exact small_config_ok|].
  apply (write_then_read_roundtrip None (replicate 64 x00)
           [x0a; x0b; x0c; x0d] [xff; xff; xff; xff] 15 small_config_ok);
    try reflexivity.
  simpl. lia.
Defined.

Lemma deserialize_rebuilds_bitmap_from_contents_witness :
  config_ok /\
  fst (block_store_deserialize plain_env {[disk_path := [x01; x02]]}
         (Some disk_path)) = None.
Proof.
  split; [exact small_config_ok|].
  destruct (deserialize_rebuilds_bitmap_from_contents plain_env
              {[disk_path := [x01; x02]]} (Some disk_path) small_config_ok)
    as (Hshort & _).
  apply (Hshort disk_path [x01; x02]).
  - reflexivity.
  - apply lookup_singleton_eq.
  - reflexivity.
Defined.

Lemma serialize_deserialize_roundtrip_witness :
  config_ok /\
  Z.of_nat (length (data fresh_store)) = 64 /\
  block_store_serialize plain_env ∅ (Some fresh_store) (Some disk_path)
  = (64, {[disk_path := data fresh_store]}).
Proof.
  split; [exact small_config_ok|]. split; [reflexivity|].
  destruct (serialize_deserialize_roundtrip plain_env ∅ fresh_store disk_path
              small_config_ok eq_refl) as (Hgood & _).
  destruct (Hgood plain_env_ok) as (Heq & _).
  rewrite Heq. rewrite insert_empty. reflexivity.
Defined.

Lemma per_block_calls_reject_out_of_range_witness :
  config_ok /\ SizeT.in_range 16 /\
  block_store_read (Some fresh_store) 16 (Some [xff; xff; xff; xff])
  = Some (0, Some [xff; xff; xff; xff]) /\
  block_store_write (Some fresh_store) 16 (Some [xff; xff; xff; xff])
  = Some (0, Some fresh_store) /\
  block_store_request (Some fresh_store) 16 = (false, Some fresh_store) /\
  block_store_release (Some fresh_store) 16 = Some fresh_store.
Proof.
  assert (SizeT.in_range 16) as Hid
    by (unfold SizeT.in_range; vm_compute; split; discriminate).
  split; [exact small_config_ok|]. split; [exact Hid|].
  destruct (per_block_calls_reject_out_of_range fresh_store 16
              (Some [xff; xff; xff; xff]) small_config_ok eq_refl Hid)
    as (Hreject & _).
  - intros b [= <-]. reflexivity.
  - apply Hreject. simpl. lia.
Defined.

Lemma used_blocks_can_exceed_total_witness :
  config_ok /\ block_store_create plain_env = Some fresh_store /\
  block_store_get_used_blocks
    (snd (request_range (snd (allocate_many 14 (Some fresh_store))) 0 2))
  = 18 /\
  block_store_get_free_blocks
    (snd (request_range (snd (allocate_many 14 (Some fresh_store))) 0 2))
  = 2 ^ 64 - 2.
Proof.
  split; [exact small_config_ok|]. split; [reflexivity|].
  destruct (used_blocks_can_exceed_total plain_env fresh_store
              small_config_ok ltac:(simpl; lia) fresh_store_created)
    as ((_ & Hused & _ & Hfree) & _).
  split; [exact Hused|exact Hfree].
Defined.

(** ** The further properties on the small store *)

Lemma size_t_5 : SizeT.in_range 5.
Proof. unfold SizeT.in_range; vm_compute; split; discriminate. Defined.

Lemma small_bitmap_reserved_clear : reserved_clear small_bitmap.
Proof.
  intros j _.
  exact (proj1 (proj2 (block_store_create_ok plain_env fresh_store
                         small_config_ok fresh_store_created))
           small_bitmap j eq_refl).
Defined.

Lemma loaded_store_loaded :
  fst (block_store_deserialize plain_env {[disk_path := full_image]}
         (Some disk_path)) = Some loaded_store.
Proof. vm_compute. reflexivity. Defined.

Lemma allocate_returns_lowest_free_witness :
  config_ok /\ store_ok fresh_store /\
  exists bm, bitmap fresh_store = Some bm.
Proof.
  split; [exact small_config_ok|]. split; [exact fresh_store_ok|].
  destruct (allocate_returns_lowest_free fresh_store small_config_ok
              fresh_store_ok) as (bm & Hbm & _).
  exists bm. exact Hbm.
Defined.

Lemma allocate_fails_iff_full_witness :
  config_ok /\ bitmap fresh_store = Some small_bitmap /\
  (fst (block_store_allocate (Some fresh_store)) = SizeT.SIZE_MAX <->
   all_unreserved_used small_bitmap).
Proof.
  split; [exact small_config_ok|]. split; [reflexivity|].
  exact (allocate_fails_iff_full fresh_store small_bitmap small_config_ok
           eq_refl).
Defined.

Lemma request_twice_fails_witness :
  store_ok fresh_store /\ SizeT.in_range 5 /\
  fst (block_store_request (snd (block_store_request (Some fresh_store) 5)) 5)
  = false.
Proof.
  split; [exact fresh_store_ok|]. split; [exact size_t_5|].
  exact (proj1 (request_twice_fails fresh_store 5 fresh_store_ok size_t_5)).
Defined.

Lemma release_then_request_succeeds_witness :
  store_ok fresh_store /\
  fst (block_store_request (block_store_release (Some fresh_store) 5) 5)
  = true.
Proof.
  split; [exact fresh_store_ok|].
  apply (release_then_request_succeeds fresh_store 5 fresh_store_ok).
  simpl. lia.
Defined.

Lemma release_idempotent_witness :
  store_ok fresh_store /\ SizeT.in_range 5 /\
  block_store_release (block_store_release (Some fresh_store) 5) 5
  = block_store_release (Some fresh_store) 5.
Proof.
  split; [exact fresh_store_ok|]. split; [exact size_t_5|].
  exact (release_idempotent fresh_store 5 fresh_store_ok size_t_5).
Defined.

Lemma release_undoes_request_and_allocate_witness :
  config_ok /\ store_ok fresh_store /\ SizeT.in_range 5 /\
  block_store_release (snd (block_store_request (Some fresh_store) 5)) 5
  = Some fresh_store.
Proof.
  split; [exact small_config_ok|]. split; [exact fresh_store_ok|].
  split; [exact size_t_5|].
  apply (proj1 (release_undoes_request_and_allocate fresh_store 5
                  small_config_ok fresh_store_ok size_t_5)).
  reflexivity.
Defined.

Lemma used_blocks_steps_witness :
  config_ok /\ store_ok fresh_store /\ SizeT.in_range 5 /\
  block_store_get_used_blocks (snd (block_store_request (Some fresh_store) 5))
  = block_store_get_used_blocks (Some fresh_store) + 1.
Proof.
  split; [exact small_config_ok|]. split; [exact fresh_store_ok|].
  split; [exact size_t_5|].
  apply (proj1 (used_blocks_steps fresh_store 5
                  small_config_ok fresh_store_ok size_t_5)).
  reflexivity.
Defined.

Lemma free_blocks_exact_when_reserved_clear_witness :
  config_ok /\ store_ok fresh_store /\ reserved_clear small_bitmap /\
  block_store_get_free_blocks (Some fresh_store)
  = 16 - 2 - count_set small_bitmap.
Proof.
  split; [exact small_config_ok|]. split; [exact fresh_store_ok|].
  split; [exact small_bitmap_reserved_clear|].
  exact (proj1 (free_blocks_exact_when_reserved_clear fresh_store small_bitmap
                  small_config_ok fresh_store_ok eq_refl
                  small_bitmap_reserved_clear)).
Defined.

Lemma create_gives_empty_store_witness :
  config_ok /\
  block_store_get_used_blocks (Some fresh_store) = 2 /\
  block_store_get_free_blocks (Some fresh_store) = 16 - 2.
Proof.
  split; [exact small_config_ok|].
  destruct (create_gives_empty_store plain_env small_config_ok)
    as (_ & Hfresh).
  destruct (Hfresh fresh_store fresh_store_created)
    as (_ & _ & Hused & Hfree & _).
  split; [exact Hused|exact Hfree].
Defined.

Lemma write_leaves_other_blocks_witness :
  config_ok /\
  exists d',
    block_store_write (Some (mk_block_store None (replicate 64 x00))) 3
      (Some [x0a; x0b; x0c; x0d])
    = Some (4, Some (mk_block_store None d')) /\
    block_store_read (Some (mk_block_store None d')) 7
      (Some [xff; xff; xff; xff])
    = block_store_read (Some (mk_block_store None (replicate 64 x00))) 7
        (Some [xff; xff; xff; xff]).
Proof.
  split; [exact small_config_ok|].
  destruct (write_leaves_other_blocks None (replicate 64 x00)
              [x0a; x0b; x0c; x0d] [xff; xff; xff; xff] 3 7 small_config_ok)
    as (d' & Hw & Hr & _);
    try reflexivity; try (simpl; lia).
  exists d'. split; [exact Hw|exact Hr].
Defined.

Lemma bitmap_calls_leave_blocks_alone_witness :
  store_ok fresh_store /\
  block_store_read
    (run_calls (Some fresh_store) [CallAllocate; CallRelease 2]) 3
    (Some [xff; xff; xff; xff])
  = block_store_read (Some fresh_store) 3 (Some [xff; xff; xff; xff]).
Proof.
  split; [exact fresh_store_ok|].
  apply (bitmap_calls_leave_blocks_alone fresh_store
           [CallAllocate; CallRelease 2] 3 (Some [xff; xff; xff; xff])
           fresh_store_ok).
  apply List.Forall_cons; [exact I|].
  apply List.Forall_cons;
    [unfold call_in_range, SizeT.in_range; vm_compute; split; discriminate|].
  apply List.Forall_nil.
Defined.

Lemma deserialize_succeeds_iff_witness :
  config_ok /\
  is_Some (fst (block_store_deserialize plain_env
                  {[disk_path := full_image]} (Some disk_path))).
Proof.
  split; [exact small_config_ok|].
  apply (deserialize_succeeds_iff plain_env {[disk_path := full_image]}
           (Some disk_path) small_config_ok).
  exists disk_path, full_image.
  split; [reflexivity|]. split; [apply lookup_singleton_eq|].
  split; [reflexivity|]. split; [reflexivity|]. split; [reflexivity|].
  vm_compute. discriminate.
Defined.

Lemma deserialize_ignores_trailing_bytes_witness :
  Z.of_nat (length full_image) = BLOCK_STORE_NUM_BYTES /\
  block_store_deserialize plain_env {[disk_path := full_image ++ [x02]]}
    (Some disk_path)
  = block_store_deserialize plain_env
      (<[disk_path := full_image]> {[disk_path := full_image ++ [x02]]})
      (Some disk_path).
Proof.
  split; [reflexivity|].
  apply (deserialize_ignores_trailing_bytes plain_env
           {[disk_path := full_image ++ [x02]]} disk_path full_image [x02]).
  - reflexivity.
  - apply lookup_singleton_eq.
Defined.

Lemma serialize_result_and_file_witness :
  config_ok /\
  (fst (block_store_serialize plain_env ∅ (Some fresh_store) (Some disk_path))
   = BLOCK_STORE_NUM_BYTES <->
   open_ok plain_env = true /\ BLOCK_STORE_NUM_BYTES <= write_limit plain_env).
Proof.
  split; [exact small_config_ok|].
  exact (proj1 (serialize_result_and_file plain_env ∅ fresh_store disk_path
                  small_config_ok eq_refl)).
Defined.

Lemma failed_save_leaves_unloadable_file_witness :
  config_ok /\
  fst (block_store_deserialize plain_env
         (snd (block_store_serialize (mk_env true true true 10)
                 {[disk_path := full_image]} (Some fresh_store)
                 (Some disk_path)))
         (Some disk_path)) = None.
Proof.
  split; [exact small_config_ok|].
  apply (failed_save_leaves_unloadable_file (mk_env true true true 10)
           plain_env {[disk_path := full_image]} fresh_store disk_path
           small_config_ok eq_refl eq_refl).
  simpl. unfold BLOCK_STORE_NUM_BYTES. simpl. lia.
Defined.

Lemma reload_marks_exactly_nonzero_blocks_witness :
  config_ok /\ env_ok plain_env /\
  exists s' bm',
    fst (block_store_deserialize plain_env
           (snd (block_store_serialize plain_env ∅ (Some loaded_store)
                   (Some disk_path)))
           (Some disk_path)) = Some s' /\
    data s' = data loaded_store /\ bitmap s' = Some bm'.
Proof.
  split; [exact small_config_ok|]. split; [exact plain_env_ok|].
  destruct (reload_marks_exactly_nonzero_blocks plain_env ∅ loaded_store
              disk_path small_config_ok plain_env_ok eq_refl)
    as (s' & bm' & Hload & Hdata & Hbm & _).
  exists s', bm'. split; [exact Hload|]. split; [exact Hdata|exact Hbm].
Defined.

Lemma allocate_after_load_returns_zero_block_witness :
  config_ok /\
  fst (block_store_deserialize plain_env {[disk_path := full_image]}
         (Some disk_path)) = Some loaded_store /\
  (fst (block_store_allocate (Some loaded_store)) = SizeT.SIZE_MAX <->
   forall j, 0 <= j < BLOCK_STORE_NUM_BLOCKS -> in_reserved j = false ->
             has_nonzero_byte (data loaded_store) j).
Proof.
  split; [exact small_config_ok|]. split; [exact loaded_store_loaded|].
  exact (proj1 (allocate_after_load_returns_zero_block plain_env
                  {[disk_path := full_image]} (Some disk_path) loaded_store
                  small_config_ok loaded_store_loaded)).
Defined.

Lemma read_write_return_values_witness :
  config_ok /\ SizeT.in_range 5 /\
  (fst <$> block_store_read (Some fresh_store) 5 (Some [xff; xff; xff; xff])
   = Some BLOCK_SIZE_BYTES <->
   is_Some (Some [xff; xff; xff; xff]) /\ 5 < BLOCK_STORE_NUM_BLOCKS).
Proof.
  split; [exact small_config_ok|]. split; [exact size_t_5|].
  apply (read_write_return_values fresh_store 5 (Some [xff; xff; xff; xff])
           small_config_ok eq_refl size_t_5).
  intros b [= <-]. reflexivity.
Defined.

Lemma write_twice_keeps_last_witness :
  config_ok /\
  exists d1,
    block_store_write (Some (mk_block_store None (replicate 64 x00))) 3
      (Some [x01; x02; x03; x04])
    = Some (4, Some (mk_block_store None d1)) /\
    block_store_write (Some (mk_block_store None d1)) 3
      (Some [x0a; x0b; x0c; x0d])
    = block_store_write (Some (mk_block_store None (replicate 64 x00))) 3
        (Some [x0a; x0b; x0c; x0d]).
Proof.
  split; [exact small_config_ok|].
  apply (write_twice_keeps_last None (replicate 64 x00)
           [x01; x02; x03; x04] [x0a; x0b; x0c; x0d] 3 small_config_ok);
    try reflexivity.
  simpl. lia.
Defined.

Lemma write_back_what_was_read_witness :
  config_ok /\
  block_store_read (Some loaded_store) 3 (Some [xff; xff; xff; xff])
  = Some (4, Some [x01; x01; x01; x01]) /\
  block_store_write (Some loaded_store) 3 (Some [x01; x01; x01; x01])
  = Some (4, Some loaded_store).
Proof.
  split; [exact small_config_ok|]. split; [reflexivity|].
  apply (write_back_what_was_read loaded_store [xff; xff; xff; xff]
           [x01; x01; x01; x01] 3 small_config_ok);
    try reflexivity.
  simpl. lia.
Defined.

Lemma load_then_save_reproduces_image_witness :
  config_ok /\ env_ok plain_env /\
  block_store_serialize plain_env ∅ (Some loaded_store) (Some disk_path)
  = (BLOCK_STORE_NUM_BYTES,
     <[disk_path := take (Z.to_nat BLOCK_STORE_NUM_BYTES) full_image]> ∅).
Proof.
  split; [exact small_config_ok|]. split; [exact plain_env_ok|].
  apply (load_then_save_reproduces_image plain_env plain_env
           {[disk_path := full_image]} ∅ disk_path disk_path full_image
           loaded_store small_config_ok plain_env_ok).
  - apply lookup_singleton_eq.
  - exact loaded_store_loaded.
Defined.

Lemma counts_exact_without_reserved_requests_witness :
  config_ok /\ store_ok fresh_store /\ reserved_clear small_bitmap /\
  block_store_get_used_blocks
    (run_calls (Some fresh_store) [CallAllocate; CallRequest 5])
  + block_store_get_free_blocks
      (run_calls (Some fresh_store) [CallAllocate; CallRequest 5])
  = block_store_get_total_blocks.
Proof.
  split; [exact small_config_ok|]. split; [exact fresh_store_ok|].
  split; [exact small_bitmap_reserved_clear|].
  apply (counts_exact_without_reserved_requests fresh_store small_bitmap
           [CallAllocate; CallRequest 5] small_config_ok fresh_store_ok
           eq_refl small_bitmap_reserved_clear).
  - apply List.Forall_cons; [exact I|].
    apply List.Forall_cons; [exact size_t_5|]. apply List.Forall_nil.
  - apply List.Forall_cons; [exact I|].
    apply List.Forall_cons; [reflexivity|]. apply List.Forall_nil.
Defined.

Lemma allocate_early_hands_out_reserved_ids_witness :
  config_ok /\ 0 < BITMAP_NUM_BLOCKS /\
  block_store_create plain_env = Some fresh_store /\
  (exists s', allocate_many_early 1 (Some fresh_store) = Some ([0], Some s')) /\
  in_reserved 0 = true /\
  fst (block_store_allocate (Some fresh_store)) = 2.
Proof.
  split; [exact small_config_ok|]. split; [reflexivity|].
  split; [reflexivity|].
  destruct (allocate_early_hands_out_reserved_ids plain_env fresh_store 1
              small_config_ok eq_refl fresh_store_created)
    as (Hmany & _ & Hreserved).
  - simpl. lia.
  - split; [exact Hmany|]. split; [|reflexivity].
    apply Hreserved. reflexivity.
Defined.

